(** * frisbee-twogtp: the Frisbee Go referee

    A shallow embedding of [frisbee-twogtp.py]: the response framer
    [gtp_cut_response], the engine channel [GtpBot] over a model of the
    subprocess pipes, the move resolver ([is_move_valid], [randomize_move],
    [response2move]) and the game loop of [main].

    Python values are modelled as follows.
    - [str] is [string]; a character is its code point (below 256).
    - [float] is the kernel's binary64 [float], so sums and comparisons round
      exactly as they do in Python.
    - An exception is a value of [exn]; a call that may raise returns a
      [result].
    - An object with fields that are assigned to is the state of a
      computation in [M]; the two bots, which [main] reaches through the
      variables [player] and [opponent], are kept in one pair, and [player]
      tells which of them is meant.
    - The gomill board and vertex functions, which the script imports, are
      the fields of the class [Gomill].

    Logging, the echo of the traffic on the terminal and the printing of the
    board change none of this state and are left out. *)

From Stdlib Require Import Bool Arith ZArith List Lia.
From Stdlib Require Import Ascii String DecimalString.
From Stdlib Require Import Floats.
Import ListNotations.

Local Open Scope string_scope.
Local Open Scope list_scope.

(** ** Exceptions *)

Inductive exn : Type :=
| AssertionError
| GtpError (msg : string)
| IndexError
| ValueError
| BrokenPipeError.

Inductive result (A : Type) : Type :=
| Ok (a : A)
| Raise (e : exn).

Arguments Ok {A} a.
Arguments Raise {A} e.

(** ** Python string operations *)

Module PyStr.

Definition code (c : ascii) : nat := nat_of_ascii c.

Definition between (lo hi : nat) (c : ascii) : bool :=
  (lo <=? code c)%nat && (code c <=? hi)%nat.

(** [c.isspace()]: the characters [str.strip()] removes, for code points
    below 256. *)
Definition isspace (c : ascii) : bool :=
  between 9 13 c || between 28 32 c
  || (code c =? 133)%nat || (code c =? 160)%nat.

(** A character of the class [[0-9]]. *)
Definition isdigit (c : ascii) : bool := between 48 57 c.

Fixpoint lstrip (s : string) : string :=
  match s with
  | String c s' => if isspace c then lstrip s' else s
  | EmptyString => EmptyString
  end.

Fixpoint rstrip (s : string) : string :=
  match s with
  | EmptyString => EmptyString
  | String c s' =>
      match rstrip s' with
      | EmptyString => if isspace c then EmptyString else String c EmptyString
      | t => String c t
      end
  end.

(** [s.strip()] *)
Definition strip (s : string) : string := rstrip (lstrip s).

Definition lower_char (c : ascii) : ascii :=
  if between 65 90 c || (between 192 222 c && negb (code c =? 215)%nat)
  then ascii_of_nat (code c + 32)
  else c.

(** [s.lower()] *)
Fixpoint lower (s : string) : string :=
  match s with
  | EmptyString => EmptyString
  | String c s' => String (lower_char c) (lower s')
  end.

(** [c in chars], for a single character [c]. *)
Fixpoint mem (c : ascii) (chars : string) : bool :=
  match chars with
  | EmptyString => false
  | String d chars' => Ascii.eqb c d || mem c chars'
  end.

(** [s[-1]] of a non-empty string ([None] for the empty one). *)
Fixpoint last (s : string) : option ascii :=
  match s with
  | EmptyString => None
  | String c EmptyString => Some c
  | String _ s' => last s'
  end.

(** ["".join(lines)] *)
Definition join (lines : list string) : string :=
  fold_right String.append EmptyString lines.

(** ['%d' % n] *)
Definition fmt_d (n : Z) : string := NilZero.string_of_int (Z.to_int n).

Definition newline : ascii := ascii_of_nat 10.
Definition nl : string := String newline EmptyString.

End PyStr.

(** ** The regular expression of the framer

    [re.search] runs a backtracking matcher over the compiled pattern. The
    framer's pattern compiles to the operations of [framer_pattern]: group
    boundaries are [MARK]s, and the two starred items are greedy repetitions
    of a one-character class. *)

Module Sre.

Inductive op : Type :=
| AT_BEGINNING
| AT_END
| IN (cls : ascii -> bool)
| MAX_REPEAT (cls : ascii -> bool)
| MARK (n : nat).

(** The positions recorded by [MARK], most recent first. *)
Definition marks : Type := list (nat * nat).

(** [$] without [re.MULTILINE]: the end of the string, or just before a
    newline that ends it. *)
Definition at_end (s : string) : bool :=
  match s with
  | EmptyString => true
  | String c EmptyString => Ascii.eqb c PyStr.newline
  | _ => false
  end.

(** Match [prog] at position [pos], where [s] is the text from [pos] on.
    A greedy repetition takes one more character when it can and falls
    back to the rest of the program when the longer attempt fails. *)
Fixpoint run (prog : list op) : nat -> string -> marks -> option marks :=
  match prog with
  | [] => fun _ _ m => Some m
  | AT_BEGINNING :: prog' =>
      fun pos s m => if (pos =? 0)%nat then run prog' pos s m else None
  | AT_END :: prog' =>
      fun pos s m => if at_end s then run prog' pos s m else None
  | IN cls :: prog' =>
      fun pos s m =>
        match s with
        | String c s' => if cls c then run prog' (S pos) s' m else None
        | EmptyString => None
        end
  | MAX_REPEAT cls :: prog' =>
      fix rep (pos : nat) (s : string) (m : marks) : option marks :=
        match s with
        | String c s' =>
            if cls c then
              match rep (S pos) s' m with
              | Some r => Some r
              | None => run prog' pos s m
              end
            else run prog' pos s m
        | EmptyString => run prog' pos s m
        end
  | MARK n :: prog' =>
      fun pos s m => run prog' pos s ((n, pos) :: m)
  end.

(** [re.search]: the first start position, from the left, with a match. *)
Fixpoint search_from (prog : list op) (pos : nat) (s : string)
  : option marks :=
  match run prog pos s [] with
  | Some m => Some m
  | None =>
      match s with
      | String _ s' => search_from prog (S pos) s'
      | EmptyString => None
      end
  end.

Definition search (prog : list op) (s : string) : option marks :=
  search_from prog 0 s.

Fixpoint mark (m : marks) (n : nat) : nat :=
  match m with
  | [] => 0
  | (k, pos) :: m' => if (k =? n)%nat then pos else mark m' n
  end.

(** [match.groups()[i]]: the text between the marks of group [i]. *)
Definition group (m : marks) (i : nat) (s : string) : string :=
  let start := mark m (2 * i) in
  substring start (mark m (2 * i + 1) - start) s.

Definition any (_ : ascii) : bool := true.

End Sre.

Import Sre.

(** The pattern of [gtp_cut_response], compiled with [flags=re.DOTALL]:
    start of text, a group holding one of [=?], a greedy run of [0-9], a
    group holding a greedy run of any character (the dot also matches a
    newline), end of text. *)
Definition framer_pattern : list op :=
  [ AT_BEGINNING;
    MARK 0; IN (fun c => PyStr.mem c "=?"); MARK 1;
    MAX_REPEAT PyStr.isdigit;
    MARK 2; MAX_REPEAT any; MARK 3;
    AT_END ].

(** ** Response Framer *)

Definition gtp_cut_response (response : string) : result (bool * string) :=
  match response with
  | EmptyString => Raise AssertionError             (* assert response *)
  | String c0 _ =>
      if negb (PyStr.mem c0 "=?") then Raise AssertionError
      else
        match search framer_pattern response with
        | None => Raise (GtpError "invalid format")
        | Some tail =>
            Ok (String.eqb (group tail 0 response) "=",
                PyStr.strip (group tail 1 response))
        end
  end.

(** The payload in the words of the specification: the text after the
    marker, with the leading run of digits (the echoed id) removed, then
    stripped. [id_length] is the length of that run. *)

Fixpoint id_length (s : string) : nat :=
  match s with
  | String c s' => if PyStr.isdigit c then S (id_length s') else 0
  | EmptyString => 0
  end.

Fixpoint drop_id (s : string) : string :=
  match s with
  | String c s' => if PyStr.isdigit c then drop_id s' else s
  | EmptyString => EmptyString
  end.

Definition payload_of (rest : string) : string := PyStr.strip (drop_id rest).

(** ** State and exceptions

    A computation over a state [S] returns the new state and either a value
    or the exception it raised; what was done before the exception stays
    done. *)

Definition M (S A : Type) : Type := S -> S * result A.

Definition ret {S A} (a : A) : M S A := fun s => (s, Ok a).

Definition raise {S A} (e : exn) : M S A := fun s => (s, Raise e).

Definition bind {S A B} (m : M S A) (k : A -> M S B) : M S B :=
  fun s =>
    match m s with
    | (s', Ok a) => k a s'
    | (s', Raise e) => (s', Raise e)
    end.

Definition get {S} : M S S := fun s => (s, Ok s).

Definition modify {S} (f : S -> S) : M S unit := fun s => (f s, Ok tt).

(** A call of a pure function that may raise. *)
Definition lift {S A} (r : result A) : M S A := fun s => (s, r).

(** [assert c] *)
Definition assert {S} (c : bool) : M S unit :=
  if c then ret tt else raise AssertionError.

(** The [finally] clause of a [try] statement whose body has come to
    [exit]. The cleanup runs on every exit of the body; an exception of the
    body is raised again after it, unless the cleanup raises one of its
    own. *)
Definition finally {S A} (cleanup : M S unit) (exit : S * result A)
  : S * result A :=
  let (s', r) := exit in
  match cleanup s' with
  | (s'', Ok _) => (s'', r)
  | (s'', Raise e) => (s'', Raise e)
  end.

Declare Scope monad_scope.
Delimit Scope monad_scope with monad.
Notation "x <- m ;; k" := (bind m (fun x => k))
  (at level 61, m at next level, right associativity) : monad_scope.
Notation "' p <- m ;; k" := (bind m (fun x => let p := x in k))
  (at level 61, p pattern, m at next level, right associativity) : monad_scope.
Notation "m ;; k" := (bind m (fun _ => k))
  (at level 61, right associativity) : monad_scope.
Local Open Scope monad_scope.

(** ** The subprocess and its pipes

    [stdout] is the text the process has yet to print, up to the end of its
    output, as [decode('ascii')] gives it; [stdin] lists what has been
    written to it, oldest first. [lifetime] tells when the process exits,
    which closes its end of the pipe: once that many more lines have been
    written to it, or never. A write to a process that has exited raises
    [BrokenPipeError] and writes nothing. A read never blocks: reading
    past the text is the end of file, whether the process has exited or
    not. *)

Record process : Type := mkProcess {
  stdout : string;
  stdin : list string;
  lifetime : option nat
}.

(** The process has exited: its pipe takes no more. *)
Definition exited (q : process) : bool :=
  match lifetime q with
  | Some O => true
  | _ => false
  end.


(** What is left of a lifetime after one more line. *)
Definition shorter (left : option nat) : option nat := option_map Nat.pred left.

(** The lines of a text, each with its newline: what successive calls of
    [readline()] return before the end of file. *)
Fixpoint splitlines (text : string) : list string :=
  match text with
  | EmptyString => []
  | String c rest =>
      if Ascii.eqb c PyStr.newline then PyStr.nl :: splitlines rest
      else
        match splitlines rest with
        | [] => [String c EmptyString]
        | line :: lines => String c line :: lines
        end
  end.

(** [s.split('\n')] *)
Fixpoint split_nl (s : string) : list string :=
  match s with
  | EmptyString => [EmptyString]
  | String c rest =>
      if Ascii.eqb c PyStr.newline then EmptyString :: split_nl rest
      else
        match split_nl rest with
        | [] => [String c EmptyString]
        | field :: fields => String c field :: fields
        end
  end.

(** [prev[-1] == "\n"] *)
Definition ends_with_newline (prev : string) : bool :=
  match PyStr.last prev with
  | Some c => Ascii.eqb c PyStr.newline
  | None => false
  end.

(** The [while True] loop of [raw_read]. [pending] holds the lines that
    [readline()] will return; past them it returns the empty string. The
    result is [lines] at the [break] and the lines left unread. *)
Fixpoint raw_read_loop (prev : string) (pending lines : list string)
  : list string * list string :=
  match pending with
  | [] => (lines ++ [EmptyString], [])
  | line :: pending' =>
      let lines := lines ++ [line] in
      if String.eqb line EmptyString then (lines, pending')
      else if ends_with_newline prev && String.eqb line PyStr.nl
      then (lines, pending')
      else raw_read_loop line pending' lines
  end.

(** ** Engine Channel *)

Record GtpBot : Type := mkGtpBot {
  color : string;
  has_passed : bool;
  p : process;
  commands : list string;
  name : string
}.

Definition set_p (self : GtpBot) (q : process) : GtpBot :=
  mkGtpBot (color self) (has_passed self) q (commands self) (name self).

Definition set_has_passed (v : bool) (self : GtpBot) : GtpBot :=
  mkGtpBot (color self) v (p self) (commands self) (name self).

Definition set_commands (v : list string) (self : GtpBot) : GtpBot :=
  mkGtpBot (color self) (has_passed self) (p self) v (name self).

Definition set_name (v : string) (self : GtpBot) : GtpBot :=
  mkGtpBot (color self) (has_passed self) (p self) (commands self) v.

Module Bot.

(** [self.write(gtp_cmd)]: the write and the flush of the pipe, which
    raises [BrokenPipeError] when the process has exited. The commands of
    the referee are ASCII text, as the output of the engines is, so the
    conversion to bytes is left out. *)
Definition write (gtp_cmd : string) : M GtpBot unit :=
  fun self =>
    if exited (p self) then (self, Raise BrokenPipeError)
    else
      (set_p self (mkProcess (stdout (p self))
                             (stdin (p self) ++ [(gtp_cmd ++ PyStr.nl)%string])
                             (shorter (lifetime (p self)))),
       Ok tt).

(** [self.raw_read()] *)
Definition raw_read : M GtpBot string :=
  fun self =>
    let (lines, unread) :=
      raw_read_loop "######" (splitlines (stdout (p self))) [] in
    (set_p self (mkProcess (PyStr.join unread) (stdin (p self))
                           (lifetime (p self))),
     Ok (PyStr.join lines)).

(** [self.read()] *)
Definition read : M GtpBot (bool * string) :=
  response <- raw_read ;;
  lift (gtp_cut_response response).

(** [self.interact(gtp_cmd)] *)
Definition interact (gtp_cmd : string) : M GtpBot (bool * string) :=
  write gtp_cmd ;;
  read.

(** [GtpBot(bot_cmd, color)], where [proc] is the process that
    [subprocess.Popen(bot_cmd, ...)] starts. The object under construction
    is the state; it has no [commands] or [name] until they are set. *)
Definition init (proc : process) (color : string) : GtpBot * result unit :=
  ( '(success, response) <- interact "list_commands" ;;
    assert success ;;
    modify (set_commands (split_nl response)) ;;
    '(success, response) <- interact "name" ;;
    assert success ;;
    modify (set_name response) )
  (mkGtpBot color false proc [] EmptyString).

End Bot.

(** ** The gomill library

    The script plays on a [gomill.boards.Board] and converts vertices with
    [gomill.common]. [play] returns the board after the move and the point
    forbidden by simple ko, or tells which of its two exceptions it raised;
    the board given to it is left as it was, as with the deep copy of
    [is_move_valid]. [move_from_vertex] is only called on a text whose lower
    case is not "pass", so it returns a point or raises. *)

Definition point : Type := (Z * Z)%type.

Inductive play_result (B : Type) : Type :=
| Played (board : B) (ko : option point)
| PlayIndexError
| PlayValueError.

Arguments Played {B} board ko.
Arguments PlayIndexError {B}.
Arguments PlayValueError {B}.

Class Gomill : Type := {
  Board : Type;
  Board_new : Z -> result Board;
  side : Board -> Z;
  play : Board -> Z -> Z -> string -> play_result Board;
  move_from_vertex : string -> Z -> result point;
  format_vertex : point -> string
}.

(** ** Moves *)

Inductive move_t : Type :=
| Pass
| Skip
| Vertex (pt : point).

Definition is_pass (move : move_t) : bool :=
  match move with Pass => true | _ => false end.

Definition point_eqb (a b : point) : bool :=
  (fst a =? fst b)%Z && (snd a =? snd b)%Z.

(** [move == ko_move] *)
Definition is_ko (move : point) (ko_move : option point) : bool :=
  match ko_move with
  | Some k => point_eqb move k
  | None => false
  end.

(** The [for] loop of [randomize_move] over the directions left. *)
Fixpoint randomize_walk (dirs : list (Z * Z)) (pr_sum rnd epsilon : float)
  (move : point) : point :=
  match dirs with
  | [] => move
  | (dr, dc) :: dirs' =>
      let pr_sum := (pr_sum + epsilon)%float in
      if (rnd <=? pr_sum)%float then (fst move + dr, snd move + dc)%Z
      else randomize_walk dirs' pr_sum rnd epsilon move
  end.

Definition directions : list (Z * Z) :=
  [(1, 0); (0, 1); (-1, 0); (0, -1)]%Z.

(** ** The referee *)

Record args_t : Type := mkArgs {
  boardsize : Z;
  komi : float;
  epsilon : float;
  allow_invalid : bool
}.

(** Which of the two bot objects a variable names. *)
Inductive which : Type := TheBlack | TheWhite.

Definition other (w : which) : which :=
  match w with TheBlack => TheWhite | TheWhite => TheBlack end.

Inductive control : Type := Break | Continue.

Record engines : Type := mkEngines {
  black : GtpBot;
  white : GtpBot
}.

Definition bot (w : which) (e : engines) : GtpBot :=
  match w with TheBlack => black e | TheWhite => white e end.

Definition set_bot (w : which) (v : GtpBot) (e : engines) : engines :=
  match w with
  | TheBlack => mkEngines v (white e)
  | TheWhite => mkEngines (black e) v
  end.

(** A method call on one of the two bot objects. *)
Definition on {A} (w : which) (m : M GtpBot A) : M engines A :=
  fun e => let (self, r) := m (bot w e) in (set_bot w self e, r).

Section Referee.

Context {G : Gomill}.

(** ['%.1f' % x] *)
Variable fmt_1f : float -> string.

Variable args : args_t.

(** The variables of [main] and the state of the [random] module: the
    value [random.random()] returns at its [n]-th call is [random_tape n].
    [player] tells which bot object the variable [player] names;
    [opponent] names the other one. *)
Record state : Type := mkState {
  bots : engines;
  b : Board;
  player : which;
  ko_move : option point;
  movenum : Z;
  random_tape : nat -> float;
  random_calls : nat
}.

Definition opponent (st : state) : which := other (player st).


Definition set_bots (v : engines) (st : state) : state :=
  mkState v (b st) (player st) (ko_move st) (movenum st)
          (random_tape st) (random_calls st).

Definition set_board_ko (v : Board) (ko : option point) (st : state)
  : state :=
  mkState (bots st) v (player st) ko (movenum st)
          (random_tape st) (random_calls st).

Definition set_ko_move (ko : option point) (st : state) : state :=
  mkState (bots st) (b st) (player st) ko (movenum st)
          (random_tape st) (random_calls st).

(** [player, opponent = opponent, player] and [movenum += 1] *)
Definition next_turn (st : state) : state :=
  mkState (bots st) (b st) (other (player st)) (ko_move st)
          (movenum st + 1)%Z (random_tape st) (random_calls st).

Definition on_bot {A} (w : which) (m : M GtpBot A) : M state A :=
  fun st => let (e, r) := on w m (bots st) in (set_bots e st, r).

Definition on_player {A} (m : M GtpBot A) : M state A :=
  fun st => on_bot (player st) m st.

Definition on_opponent {A} (m : M GtpBot A) : M state A :=
  fun st => on_bot (opponent st) m st.

(** The value of the next call of [random.random()], and the state after
    that call. *)
Definition next_random (st : state) : float :=
  random_tape st (random_calls st).

Definition drawn (st : state) : state :=
  mkState (bots st) (b st) (player st) (ko_move st) (movenum st)
          (random_tape st) (S (random_calls st)).

(** [random.random()] *)
Definition random : M state float :=
  fun st => (drawn st, Ok (next_random st)).

(** ** Move Resolver *)

Definition is_move_valid (st : state) (move : point) (color : string)
  : bool :=
  if is_ko move (ko_move st) then false
  else
    match play (b st) (fst move) (snd move) (PyStr.lower color) with
    | Played _ _ => true
    | PlayIndexError | PlayValueError => false
    end.

Definition randomize_move (move : point) : M state point :=
  rnd <- random ;;
  ret (randomize_walk directions 0%float rnd (epsilon args) move).

Definition response2move (response : string) : M state (bool * move_t) :=
  if String.eqb (PyStr.lower response) "pass" then ret (true, Pass)
  else
    st <- get ;;
    let color := color (bot (player st) (bots st)) in
    move <- lift (move_from_vertex response (side (b st))) ;;
    if negb (allow_invalid args) && negb (is_move_valid st move color)
    then ret (false, Skip)
    else
      move_rnd <- randomize_move move ;;
      if negb (is_move_valid st move_rnd color) then ret (false, Skip)
      else ret (point_eqb move move_rnd, Vertex move_rnd).

(** ** Game Loop *)

Definition format_move (move : move_t) : string :=
  match move with
  | Pass => "pass"
  | Skip => "skip"
  | Vertex pt => format_vertex pt
  end.

(** The assignment of [ko_move] after the move is resolved. *)
Definition apply_move (move : move_t) : M state unit :=
  match move with
  | Pass | Skip => modify (set_ko_move None)
  | Vertex pt =>
      st <- get ;;
      let color := color (bot (player st) (bots st)) in
      match play (b st) (fst pt) (snd pt) (PyStr.lower color) with
      | Played board ko => modify (set_board_ko board ko)
      | PlayIndexError => raise IndexError
      | PlayValueError => raise ValueError
      end
  end.

(** One pass through the body of the [while True] loop. It returns the
    value of the variable [move] and how the body was left. *)
Definition turn : M state (move_t * control) :=
  st <- get ;;
  let color := color (bot (player st) (bots st)) in
  on_player (Bot.write ("frisbee-reg_genmove " ++ color)%string) ;;
  '(success, response) <- on_player Bot.read ;;
  assert success ;;
  '(player_has_his_way, move) <- response2move response ;;
  on_player (modify (set_has_passed (is_pass move))) ;;
  apply_move move ;;
  let report :=
    ("frisbee-play " ++ color ++ " " ++ format_move move)%string in
  on_player (Bot.interact report) ;;
  on_opponent (Bot.interact report) ;;
  st <- get ;;
  if has_passed (bot (player st) (bots st))
     && has_passed (bot (opponent st) (bots st))
  then ret (move, Break)
  else modify next_turn ;; ret (move, Continue).

(** The [while True] loop, for at most [fuel] turns; [None] when the
    turns are used up before the loop is left. *)
Fixpoint game_loop (fuel : nat) (st : state)
  : option (state * result unit) :=
  match fuel with
  | O => None
  | S fuel' =>
      match turn st with
      | (st', Raise e) => Some (st', Raise e)
      | (st', Ok (_, Break)) => Some (st', Ok tt)
      | (st', Ok (_, Continue)) => game_loop fuel' st'
      end
  end.

(** The [finally] clause. *)
Definition quit_both : M state unit :=
  on_player (Bot.write "quit") ;;
  on_opponent (Bot.write "quit").

(** The [try] statement of [main]. *)
Definition play_game (fuel : nat) (st : state)
  : option (state * result unit) :=
  option_map (finally quit_both) (game_loop fuel st).

(** The four [interact] calls before the board is made. *)
Definition setup : M engines unit :=
  on TheBlack (Bot.interact ("boardsize " ++ PyStr.fmt_d (boardsize args))) ;;
  on TheWhite (Bot.interact ("boardsize " ++ PyStr.fmt_d (boardsize args))) ;;
  on TheBlack (Bot.interact ("komi " ++ fmt_1f (komi args))) ;;
  on TheWhite (Bot.interact ("komi " ++ fmt_1f (komi args))) ;;
  ret tt.

(** The text the two processes have yet to print. Every turn that does
    not leave the loop reads some of it. *)
Definition unread (e : engines) : nat :=
  String.length (stdout (p (black e))) + String.length (stdout (p (white e))).

Definition processes (e : engines) : process * process :=
  (p (black e), p (white e)).

(** [main()], given the processes that the two commands start. It returns
    the two processes as they are when the program exits, and how it
    exits. The loop is allowed one more turn than there are characters
    pending when it starts, which it never uses up. *)
Definition main (black_proc white_proc : process) (tape : nat -> float)
  : option ((process * process) * result unit) :=
  match Bot.init black_proc "B" with
  | (black, Raise e) => Some ((p black, white_proc), Raise e)
  | (black, Ok _) =>
  match Bot.init white_proc "W" with
  | (white, Raise e) => Some ((p black, p white), Raise e)
  | (white, Ok _) =>
  match setup (mkEngines black white) with
  | (e, Raise ex) => Some (processes e, Raise ex)
  | (e, Ok _) =>
  match Board_new (boardsize args) with
  | Raise ex => Some (processes e, Raise ex)
  | Ok board =>
      option_map (fun exit => (processes (bots (fst exit)), snd exit))
        (play_game (S (unread e)) (mkState e board TheBlack None 0 tape 0))
  end end end end.

End Referee.

(** ** A board for running the referee

    An instance of the gomill interface on which the referee can be run on
    concrete games: a grid that takes a stone on any empty point of the
    board and never captures, so it never forbids a point by ko. Vertices
    are a column letter, with no letter I, and a row number from 1. *)

Module Grid.

Record board : Type := mkBoard {
  size : Z;
  stones : list (point * string)
}.

Definition new (n : Z) : result board :=
  if ((2 <=? n) && (n <=? 25))%Z then Ok (mkBoard n []) else Raise ValueError.

Definition occupied (bd : board) (pt : point) : bool :=
  existsb (fun s => point_eqb (fst s) pt) (stones bd).

Definition put (bd : board) (row col : Z) (colour : string)
  : play_result board :=
  if ((row <? 0) || (col <? 0) || (size bd <=? row) || (size bd <=? col))%Z
  then PlayIndexError
  else if occupied bd (row, col) then PlayValueError
  else Played (mkBoard (size bd) (((row, col), colour) :: stones bd)) None.

Fixpoint digits (s : string) (acc : Z) : option Z :=
  match s with
  | EmptyString => Some acc
  | String c s' =>
      if PyStr.isdigit c
      then digits s' (10 * acc + Z.of_nat (PyStr.code c - 48))%Z
      else None
  end.

Definition parse (vertex : string) (n : Z) : result point :=
  match PyStr.lower vertex with
  | String c (String d ds) =>
      if PyStr.between 97 122 c && negb (PyStr.code c =? 105)%nat then
        let col := Z.of_nat (PyStr.code c - (if (105 <? PyStr.code c)%nat
                                             then 98 else 97)) in
        match digits (String d ds) 0 with
        | Some k =>
            if ((1 <=? k) && (k <=? n) && (col <? n))%Z
            then Ok ((k - 1)%Z, col)
            else Raise ValueError
        | None => Raise ValueError
        end
      else Raise ValueError
  | _ => Raise ValueError
  end.

Definition show (pt : point) : string :=
  let col := Z.to_nat (snd pt) in
  (String (ascii_of_nat (col + (if (8 <=? col)%nat then 66 else 65)))
          (PyStr.fmt_d (fst pt + 1)))%string.

Definition gomill : Gomill :=
  {| Board := board;
     Board_new := new;
     side := size;
     play := put;
     move_from_vertex := parse;
     format_vertex := show |}.

(** The komi of the example games, as ['%.1f'] prints it. *)
Definition fmt_komi (_ : float) : string := "7.5".

(** An engine's answers, one after the other, from an engine that does
    not exit, and from one that exits once [n] lines have been written to
    it. *)
Definition says (answers : list string) : process :=
  mkProcess (PyStr.join (map (fun a => a ++ PyStr.nl ++ PyStr.nl)%string
                             answers)) [] None.

Definition says_until (n : nat) (answers : list string) : process :=
  mkProcess (stdout (says answers)) [] (Some n).

(** Two blank lines, then an answer and the blank line that ends it. *)
Definition blank_blank_ok : string :=
  (PyStr.nl ++ PyStr.nl ++ "= ok" ++ PyStr.nl ++ PyStr.nl)%string.

(** A bot that has written and read nothing, and the state of [main] as
    black is about to move on an empty board of nine lines. *)
Definition idle (color : string) : GtpBot :=
  mkGtpBot color false (mkProcess EmptyString [] None) [] EmptyString.

Definition position (ko : option point) (tape : nat -> float)
  : @state gomill :=
  @mkState gomill (mkEngines (idle "B") (idle "W")) (mkBoard 9 [])
           TheBlack ko 0 tape 0.

Definition args0 : args_t := mkArgs 9 7.5 0.25 false.

(** Both engines are about to answer [pass] and to acknowledge what is
    reported to them. *)
Definition both_pass : @state gomill :=
  @mkState gomill
    (mkEngines
       (mkGtpBot "B" false (says ["= pass"; "="; "="]) [] EmptyString)
       (mkGtpBot "W" false (says ["="; "= pass"; "="]) [] EmptyString))
    (mkBoard 9 []) TheBlack None 0 (fun _ => 0.5%float) 0.

(** An engine that passes at once, and one that also answers every
    [boardsize], [komi] and [frisbee-play] command with a failure. The
    black engine is sent one more command than the white one before the
    game ends. *)
Definition black_passer : process :=
  says ["= name"; "= black"; "="; "="; "= pass"; "="; "="].

Definition white_passer : process :=
  says ["= name"; "= white"; "="; "="; "="; "= pass"; "="].



End Grid.

(** ** Deflection, in the words of the specification

    Rows are numbered from the bottom of the board, so the neighbour to the
    north is one row up. [cumulative epsilon k] is the sum after [k] steps,
    each step adding [epsilon] to the sum so far, from zero. The result is
    the first neighbour, in the order north, east, south, west, whose
    cumulative sum meets or exceeds the draw, and the original point when
    none does. *)

Definition north (move : point) : point := (fst move + 1, snd move)%Z.
Definition east (move : point) : point := (fst move, snd move + 1)%Z.
Definition south (move : point) : point := (fst move + -1, snd move)%Z.
Definition west (move : point) : point := (fst move, snd move + -1)%Z.

Definition neighbours (move : point) : list point :=
  [north move; east move; south move; west move].

Fixpoint cumulative (epsilon : float) (k : nat) : float :=
  match k with
  | O => 0%float
  | S k' => (cumulative epsilon k' + epsilon)%float
  end.

Definition deflection (epsilon u : float) (move : point) : point :=
  match find (fun k => (u <=? cumulative epsilon (S k))%float) [0; 1; 2; 3] with
  | Some k => nth k (neighbours move) move
  | None => move
  end.

(** ** Receive, in the words of the specification

    [until_blank] cuts a list of lines after its first blank line.
    [receive_stated] stops at a blank line only when the line before it is
    not blank, as the specification states it; [receive] stops at the first
    blank line after the first line read, whatever the line before it is. *)

Definition is_blank (line : string) : bool := String.eqb line PyStr.nl.

Fixpoint until_blank (lines : list string) : list string * list string :=
  match lines with
  | [] => ([], [])
  | line :: lines' =>
      if is_blank line then ([line], lines')
      else let (taken, unread) := until_blank lines' in (line :: taken, unread)
  end.

Fixpoint until_blank_after_content (after_content : bool)
  (lines : list string) : list string * list string :=
  match lines with
  | [] => ([], [])
  | line :: lines' =>
      if is_blank line && after_content then ([line], lines')
      else
        let (taken, unread) :=
          until_blank_after_content (negb (is_blank line)) lines' in
        (line :: taken, unread)
  end.

Definition receive_stated (text : string) : string * string :=
  let (taken, unread) := until_blank_after_content false (splitlines text) in
  (PyStr.join taken, PyStr.join unread).

Definition receive (text : string) : string * string :=
  match splitlines text with
  | [] => (EmptyString, EmptyString)
  | first :: lines =>
      let (taken, unread) := until_blank lines in
      (PyStr.join (first :: taken), PyStr.join unread)
  end.

(** The bot after it has written [written] and read one response: only its
    process changes. *)
Definition after_io (self : GtpBot) (written : list string) : GtpBot :=
  set_p self (mkProcess (snd (receive (stdout (p self))))
                        (stdin (p self) ++ written)
                        (Nat.iter (List.length written) shorter
                                  (lifetime (p self)))).


(** The length of the text a bot's process has yet to print. *)
Definition pending (self : GtpBot) : nat := String.length (stdout (p self)).

(** A bot whose process is about to print [text]. *)
Definition about_to_print (text : string) (self : GtpBot) : GtpBot :=
  set_p self (mkProcess text (stdin (p self)) (lifetime (p self))).

(** A computation that keeps an invariant of the state, however it ends. *)
Definition stable {S A} (I : S -> Prop) (m : M S A) : Prop :=
  forall s, I s -> I (fst (m s)).

(** A line written to an engine that is not a [frisbee-epsilon] command,
    and a bot, a pair of bots and a process that have been sent none. *)
Definition not_epsilon (line : string) : Prop :=
  String.prefix "frisbee-epsilon" line = false.

Definition no_epsilon_sent (q : process) : Prop :=
  Forall not_epsilon (stdin q).

Definition bot_clean (self : GtpBot) : Prop := no_epsilon_sent (p self).

Definition clean (e : engines) : Prop :=
  bot_clean (black e) /\ bot_clean (white e).

Definition state_clean {G : Gomill} (st : state) : Prop := clean (bots st).

(** Lines as [readline()] returns them: none is empty, and each one that
    has a successor ends with a newline. *)
Fixpoint well_formed (lines : list string) : Prop :=
  match lines with
  | [] => True
  | line :: lines' =>
      line <> EmptyString
      /\ (lines' <> [] -> ends_with_newline line = true)
      /\ well_formed lines'
  end.

(** ** Texts of one kind of character *)

(** A text of digits only, and a text of whitespace only. *)
Fixpoint all_digits (s : string) : bool :=
  match s with
  | EmptyString => true
  | String c s' => PyStr.isdigit c && all_digits s'
  end.

Fixpoint all_space (s : string) : bool :=
  match s with
  | EmptyString => true
  | String c s' => PyStr.isspace c && all_space s'
  end.

(** ** Engines for examples *)


(** ** Observations of the state of [main] *)

(** What one of the two engines has been sent so far. *)
Definition sent {G : Gomill} (st : state) (w : which) : list string :=
  stdin (p (bot w (bots st))).

(** A method that leaves [color] as it is. *)
Definition keeps_color {A} (m : M GtpBot A) : Prop :=
  forall self, color (fst (m self)) = color self.

(** A method that has written the lines [written] to the process when it
    returns. *)
Definition writes {A} (written : list string) (m : M GtpBot A) : Prop :=
  forall self self' a,
    m self = (self', Ok a) -> stdin (p self') = stdin (p self) ++ written.


(** ** Start-up as a whole *)

(** A process that has been sent only lines of [ok], and a bot and a pair
    of bots whose processes have. *)
Definition only_sent (ok : string -> Prop) (q : process) : Prop :=
  Forall ok (stdin q).

Definition bot_only_sent (ok : string -> Prop) (self : GtpBot) : Prop :=
  only_sent ok (p self).

Definition both_only_sent (ok : string -> Prop) (e : engines) : Prop :=
  bot_only_sent ok (black e) /\ bot_only_sent ok (white e).

Definition quit_line : string := ("quit" ++ PyStr.nl)%string.

Definition not_quit (line : string) : Prop := line <> quit_line.

(** The statements of [main] before the [try] statement: the two bots and
    the board when none of them raises. *)
Definition start_up {G : Gomill} (fmt_1f : float -> string) (args : args_t)
  (black_proc white_proc : process) : option (engines * Board) :=
  match Bot.init black_proc "B" with
  | (_, Raise _) => None
  | (black, Ok _) =>
  match Bot.init white_proc "W" with
  | (_, Raise _) => None
  | (white, Ok _) =>
  match setup fmt_1f args (mkEngines black white) with
  | (_, Raise _) => None
  | (e, Ok _) =>
  match Board_new (boardsize args) with
  | Raise _ => None
  | Ok board => Some (e, board)
  end end end end.

(** ** Substitution and prefix match with a pattern

    [re.sub] and [re.match] of the test bot, on the matcher of the framer.
    The end of a match is recorded by a last [MARK]. [sub] is written for a
    pattern that matches at least one character, as both patterns of the
    test bot do: at each position, from the left, a match is replaced and
    the scan goes on after it, and a character at which nothing matches is
    copied. *)

Definition match_end (prog : list op) (pos : nat) (s : string) : option nat :=
  option_map (fun m => mark m 1) (run (prog ++ [MARK 1]) pos s []).

(** [skip] is the number of characters still to pass over, the rest of the
    match that was just replaced. *)
Fixpoint sub_from (prog : list op) (repl : string) (pos : nat) (s : string)
  (skip : nat) : string :=
  match s with
  | EmptyString => EmptyString
  | String c s' =>
      match skip with
      | S k => sub_from prog repl (S pos) s' k
      | O =>
          match match_end prog pos s with
          | Some e =>
              if (pos <? e)%nat
              then (repl ++ sub_from prog repl (S pos) s' (e - pos - 1))%string
              else String c (sub_from prog repl (S pos) s' 0)
          | None => String c (sub_from prog repl (S pos) s' 0)
          end
      end
  end.

(** [re.sub(pattern, repl, s)] *)
Definition sub (prog : list op) (repl s : string) : string :=
  sub_from prog repl 0 s 0.

(** [re.match(pattern, s)], as a truth value *)
Definition re_match (prog : list op) (s : string) : bool :=
  match run prog 0 s [] with
  | Some _ => true
  | None => false
  end.

(** [s.split()] *)
Fixpoint split_ws (s : string) : list string :=
  match s with
  | EmptyString => []
  | String c s' =>
      if PyStr.isspace c then split_ws s'
      else
        match s' with
        | EmptyString => [String c EmptyString]
        | String d _ =>
            if PyStr.isspace d then String c EmptyString :: split_ws s'
            else
              match split_ws s' with
              | word :: words => String c word :: words
              | [] => [String c EmptyString]
              end
        end
  end.

(** ** The test bot *)

Module TestBot.

(** The patterns of the main loop: a run of whitespace, a comment up to
    the end of the line (the dot matches no newline), a run of digits. A
    run of one or more is one character of the class and a greedy run of
    more. *)
Definition hash : ascii := ascii_of_nat 35.

Definition spaces : list op := [IN PyStr.isspace; MAX_REPEAT PyStr.isspace].

Definition comment : list op :=
  [IN (fun c => Ascii.eqb c hash);
   MAX_REPEAT (fun c => negb (Ascii.eqb c PyStr.newline))].

Definition number : list op := [IN PyStr.isdigit; MAX_REPEAT PyStr.isdigit].

Definition moves : list string := ["C10"; "C9"; "C8"; "C7"; "C6"; "pass"].

(** The answer to [list_commands]. *)
Definition listed : string :=
  ("name" ++ PyStr.nl ++ "frisbee-reg_genmove" ++ PyStr.nl
   ++ "frisbee-play" ++ PyStr.nl ++ "list_commands" ++ PyStr.nl
   ++ "komi" ++ PyStr.nl ++ "frisbee-epsilon" ++ PyStr.nl
   ++ "boardsize" ++ PyStr.nl ++ "clear_board")%string.

(** [handle_cmd(cmd, args)] with the global [movenum] as the state: the
    new [movenum] and the pair of the error flag and the answer. *)
Definition handle_cmd (cmd : string) (args : list string) (movenum : nat)
  : nat * (bool * string) :=
  if String.eqb cmd "name" then (movenum, (false, "test_bot"))
  else if String.eqb cmd "list_commands" then (movenum, (false, listed))
  else if String.eqb cmd "frisbee-reg_genmove" then
    (movenum + 1,
     (false, nth (movenum mod List.length moves) moves EmptyString))
  else if existsb (String.eqb cmd)
            ["frisbee-play"; "boardsize"; "komi"; "frisbee-epsilon"]
  then (movenum, (false, EmptyString))
  else (movenum, (true, "unknown cmd")).

(** What the body of the main loop does with one line. *)
Inductive reply : Type :=
| Silent
| Printed (output : string)
| Crashed (e : exn).

(** [cmdline] as it is just after the [split]. *)
Definition command_words (raw_line : string) : list string :=
  split_ws (PyStr.strip (sub comment EmptyString (sub spaces " " raw_line))).

(** The body of the loop from the test of [cmdline] on. *)
Definition answer_words (cmdline : list string) (movenum : nat)
  : nat * reply :=
  match cmdline with
  | [] => (movenum, Silent)
  | first :: rest =>
      let (cmdid, cmdline) :=
        if re_match number first then (first, rest)
        else (EmptyString, first :: rest) in
      match cmdline with
      | [] => (movenum, Crashed IndexError)
      | cmd :: args =>
          let '(movenum', (err, ret)) :=
            handle_cmd (PyStr.lower cmd) args movenum in
          (movenum',
           Printed ((if err then "?" else "=") ++ cmdid ++ " " ++ ret
                    ++ PyStr.nl ++ PyStr.nl))
      end
  end.

Definition answer_line (raw_line : string) (movenum : nat) : nat * reply :=
  answer_words (command_words raw_line) movenum.

(** The [for] loop over the lines of the input: what is printed, the
    final [movenum], and the exception that ends the program if one is
    raised. *)
Fixpoint serve (lines : list string) (movenum : nat)
  : string * nat * option exn :=
  match lines with
  | [] => (EmptyString, movenum, None)
  | raw_line :: lines' =>
      match answer_line raw_line movenum with
      | (movenum', Silent) => serve lines' movenum'
      | (movenum', Printed output) =>
          let '(printed, final, e) := serve lines' movenum' in
          ((output ++ printed)%string, final, e)
      | (movenum', Crashed e) => (EmptyString, movenum', Some e)
      end
  end.

(** The program on the text of its standard input. *)
Definition run_bot (input : string) : string * nat * option exn :=
  serve (splitlines input) 0.

End TestBot.

(** ** The command line of the test bot, in plain terms *)

(** The length of the leading run of characters of a class, and a text
    of characters of a class only. *)
Fixpoint run_length (cls : ascii -> bool) (s : string) : nat :=
  match s with
  | String c s' => if cls c then S (run_length cls s') else 0
  | EmptyString => 0
  end.

Fixpoint all_in (cls : ascii -> bool) (s : string) : bool :=
  match s with
  | EmptyString => true
  | String c s' => cls c && all_in cls s'
  end.

(** Every run of whitespace replaced by one space; [in_run] tells that the
    space of the current run has been put out already. *)
Fixpoint collapse (in_run : bool) (s : string) : string :=
  match s with
  | EmptyString => EmptyString
  | String c s' =>
      if PyStr.isspace c
      then if in_run then collapse true s'
           else String " " (collapse true s')
      else String c (collapse false s')
  end.

(** The text before the first [#]. *)
Fixpoint before_hash (s : string) : string :=
  match s with
  | EmptyString => EmptyString
  | String c s' =>
      if Ascii.eqb c TestBot.hash then EmptyString
      else String c (before_hash s')
  end.

Definition starts_space (s : string) : bool :=
  match s with
  | String c _ => PyStr.isspace c
  | EmptyString => false
  end.

Definition not_newline (c : ascii) : bool := negb (Ascii.eqb c PyStr.newline).

(** An answer of the test bot that the referee reads back as it is: put
    after a space and before a newline it has no blank line after its
    first line, and stripping it after the space gives it back. *)
Definition plain_answer (ret : string) : Prop :=
  ~ In PyStr.nl (tl (splitlines (" " ++ ret ++ PyStr.nl)))
  /\ PyStr.strip (" " ++ ret) = ret.

Definition not_space (c : ascii) : bool := negb (PyStr.isspace c).

(** The first word of a command line is no id or is made of digits
    only. *)
Definition numeric_id (cmdline : list string) : bool :=
  match cmdline with
  | first :: _ => if re_match TestBot.number first then all_digits first else true
  | [] => true
  end.

(** [k] calls of [read] in a row, and what they return. *)
Fixpoint read_many (k : nat) : M GtpBot (list (bool * string)) :=
  match k with
  | O => ret []
  | S k' =>
      (answer <- Bot.read ;;
       answers <- read_many k' ;;
       ret (answer :: answers))%monad
  end.

(** Every line of the input has a numeric id or none. *)
Definition numeric_ids (lines : list string) : bool :=
  forallb (fun raw_line => numeric_id (TestBot.command_words raw_line)) lines.

(** The lines the test bot answers before it stops, and the results of
    [handle_cmd] for them as the referee is to see them. *)
Fixpoint printed_replies (lines : list string) (movenum : nat) : nat :=
  match lines with
  | [] => 0
  | raw_line :: lines' =>
      match TestBot.answer_line raw_line movenum with
      | (movenum', TestBot.Silent) => printed_replies lines' movenum'
      | (movenum', TestBot.Printed _) => S (printed_replies lines' movenum')
      | (_, TestBot.Crashed _) => 0
      end
  end.

(** ** Responses and pipes *)





(** ** The turns of a game *)



(** A state of [main] in which both engines have been sent only lines of
    [ok]. *)
Definition state_only_sent {G : Gomill} (ok : string -> Prop) (st : state)
  : Prop :=
  both_only_sent ok (bots st).

(** * Properties *)

(** ** The framer's pattern *)

Section FramerPattern.

Lemma run_repeat_cons (cls : ascii -> bool) (prog : list op) (pos : nat)
  (c : ascii) (s : string) (m : marks) :
  run (MAX_REPEAT cls :: prog) pos (String c s) m =
  if cls c then
    match run (MAX_REPEAT cls :: prog) (S pos) s m with
    | Some r => Some r
    | None => run prog pos (String c s) m
    end
  else run prog pos (String c s) m.
Proof. reflexivity. Qed.

Lemma run_repeat_nil (cls : ascii -> bool) (prog : list op) (pos : nat)
  (m : marks) :
  run (MAX_REPEAT cls :: prog) pos EmptyString m = run prog pos EmptyString m.
Proof. reflexivity. Qed.

(** The greedy run of any character takes the whole text, and the end of
    text test then holds at once. *)
Lemma run_rest (s : string) (pos : nat) (m : marks) :
  run [MAX_REPEAT any; MARK 3; AT_END] pos s m
  = Some ((3, pos + String.length s) :: m).
Proof.
  revert pos; induction s as [|c s IH]; intro pos.
  - rewrite run_repeat_nil; cbn. now rewrite Nat.add_0_r.
  - rewrite run_repeat_cons; cbn [any].
    rewrite IH; cbn [String.length]. now rewrite Nat.add_succ_r.
Qed.

Lemma run_id (s : string) (pos : nat) (m : marks) :
  run [MAX_REPEAT PyStr.isdigit; MARK 2; MAX_REPEAT any; MARK 3; AT_END]
      pos s m
  = Some ((3, pos + String.length s) :: (2, pos + id_length s) :: m).
Proof.
  revert pos; induction s as [|c s IH]; intro pos.
  - rewrite run_repeat_nil.
    change (run (MARK 2 :: ?q) pos ?t m) with (run q pos t ((2, pos) :: m)).
    rewrite run_rest; cbn. now rewrite !Nat.add_0_r.
  - rewrite run_repeat_cons; cbn [id_length String.length].
    destruct (PyStr.isdigit c).
    + rewrite IH. now rewrite !Nat.add_succ_r.
    + change (run (MARK 2 :: ?q) pos ?t m) with (run q pos t ((2, pos) :: m)).
      rewrite run_rest; cbn [String.length]. now rewrite Nat.add_0_r.
Qed.

(** On a text that starts with [=] or [?] the pattern matches at the
    first position tried. *)
Lemma search_framed (c : ascii) (rest : string) :
  PyStr.mem c "=?" = true ->
  search framer_pattern (String c rest)
  = Some [(3, 1 + String.length rest); (2, 1 + id_length rest);
          (1, 1); (0, 0)].
Proof.
  intro Hc. unfold search, search_from, framer_pattern.
  change (run (AT_BEGINNING :: MARK 0 :: IN ?f :: MARK 1 :: ?q) 0
              (String c rest) [])
    with (if f c then run q 1 rest [(1, 1); (0, 0)] else None).
  cbv beta. rewrite Hc, run_id. reflexivity.
Qed.

Lemma substring_none (s : string) : substring 0 0 s = EmptyString.
Proof. destruct s; reflexivity. Qed.

Lemma substring_all (s : string) : substring 0 (String.length s) s = s.
Proof. induction s as [|c s IH]; cbn; [reflexivity | now rewrite IH]. Qed.

Lemma substring_drop_id (s : string) :
  substring (id_length s) (String.length s - id_length s) s = drop_id s.
Proof.
  induction s as [|c s IH]; [reflexivity|].
  cbn [id_length drop_id String.length]. destruct (PyStr.isdigit c).
  - cbn [substring]. exact IH.
  - rewrite Nat.sub_0_r. apply (substring_all (String c s)).
Qed.

(** What the framer returns on a text that starts with [=] or [?]. *)
Lemma gtp_cut_response_framed (c : ascii) (rest : string) :
  PyStr.mem c "=?" = true ->
  gtp_cut_response (String c rest)
  = Ok (Ascii.eqb c "=", payload_of rest).
Proof.
  intro Hc. unfold gtp_cut_response. rewrite Hc; cbn [negb].
  rewrite (search_framed c rest Hc).
  unfold group, payload_of; cbn [mark Nat.eqb Nat.mul Nat.add].
  f_equal. f_equal.
  - cbn [Nat.sub substring]. rewrite substring_none.
    cbn. destruct (Ascii.eqb c "="); reflexivity.
  - cbn [substring Nat.sub]. now rewrite substring_drop_id.
Qed.

End FramerPattern.

(** ** Response Framer *)

(** C10. On every text whose first character is [=] or [?] the framer's
    pattern matches, so the branch raising [GtpError] is not taken and the
    framer returns a pair of a flag and a text. *)
Theorem framer_pattern_always_matches (c : ascii) (rest : string) :
  PyStr.mem c "=?" = true ->
  search framer_pattern (String c rest) <> None
  /\ exists (success : bool) (payload : string),
       gtp_cut_response (String c rest) = Ok (success, payload).
Proof.
  intro Hc. split.
  - rewrite (search_framed c rest Hc). discriminate.
  - rewrite (gtp_cut_response_framed c rest Hc). eauto.
Qed.

Lemma framer_pattern_always_matches_witness :
  search framer_pattern "=1 ok" <> None
  /\ exists (success : bool) (payload : string),
       gtp_cut_response "=1 ok" = Ok (success, payload).
Proof. exact (framer_pattern_always_matches "=" "1 ok" eq_refl). Defined.

Lemma mem_markers (c : ascii) :
  PyStr.mem c "=?" = Ascii.eqb c "=" || Ascii.eqb c "?".
Proof. cbn. now rewrite orb_false_r. Qed.

(** C5, as amended. On a text that starts with [=] the framer returns true
    and the payload, on one that starts with [?] false and the payload,
    where the payload is the rest of the text without its leading digits,
    stripped. On the empty text and on a text that starts with any other
    character it fails its entry assertion: the exception is
    [AssertionError], not the framer's own format error. *)
Theorem gtp_cut_response_cases (c : ascii) (rest : string) :
  gtp_cut_response (String c rest)
  = (if Ascii.eqb c "=" then Ok (true, payload_of rest)
     else if Ascii.eqb c "?" then Ok (false, payload_of rest)
     else Raise AssertionError)
  /\ gtp_cut_response EmptyString = Raise AssertionError
  /\ gtp_cut_response "=123 foo" = Ok (true, "foo")
  /\ gtp_cut_response "?77 bad" = Ok (false, "bad").
Proof.
  repeat split.
  destruct (PyStr.mem c "=?") eqn:Hc.
  - rewrite (gtp_cut_response_framed c rest Hc).
    rewrite mem_markers in Hc.
    destruct (Ascii.eqb c "="); [reflexivity|].
    cbn in Hc. now rewrite Hc.
  - unfold gtp_cut_response. rewrite Hc. rewrite mem_markers in Hc.
    apply orb_false_iff in Hc as [-> ->]. reflexivity.
Qed.

(** C5 as stated fails: a text that starts with neither marker does not
    raise the format error. *)
Lemma gtp_cut_response_unframed_asserts :
  gtp_cut_response "hello" = Raise AssertionError
  /\ gtp_cut_response "hello" <> Raise (GtpError "invalid format").
Proof. split; [reflexivity | discriminate]. Qed.

(** ** Receive *)

Section Receive.

Lemma join_app (xs ys : list string) :
  PyStr.join (xs ++ ys) = (PyStr.join xs ++ PyStr.join ys)%string.
Proof.
  induction xs as [|x xs IH]; [reflexivity|].
  cbn [app PyStr.join fold_right]. fold (PyStr.join (xs ++ ys)).
  fold (PyStr.join xs). rewrite IH.
  clear IH. induction x as [|a x IHx]; cbn; [reflexivity | now rewrite IHx].
Qed.

Lemma append_empty (s : string) : (s ++ EmptyString)%string = s.
Proof. induction s as [|c s IH]; cbn; [reflexivity | now rewrite IH]. Qed.

Lemma append_assoc (r s t : string) :
  ((r ++ s) ++ t)%string = (r ++ (s ++ t))%string.
Proof. induction r as [|c r IH]; cbn; [reflexivity | now rewrite IH]. Qed.

Lemma join_splitlines (text : string) : PyStr.join (splitlines text) = text.
Proof.
  induction text as [|c rest IH]; [reflexivity|].
  cbn [splitlines]. destruct (Ascii.eqb_spec c PyStr.newline) as [->|_].
  - cbn. fold (PyStr.join (splitlines rest)). now rewrite IH.
  - destruct (splitlines rest) as [|line lines].
    + cbn in IH |- *. now rewrite <- IH.
    + cbn in IH |- *. now rewrite IH.
Qed.

Lemma ends_with_newline_cons (c : ascii) (line : string) :
  line <> EmptyString ->
  ends_with_newline (String c line) = ends_with_newline line.
Proof. destruct line; [congruence | reflexivity]. Qed.

Lemma splitlines_well_formed (text : string) : well_formed (splitlines text).
Proof.
  induction text as [|c rest IH]; [exact I|].
  cbn [splitlines]. destruct (Ascii.eqb c PyStr.newline).
  - cbn [well_formed]. repeat split; [discriminate | exact IH].
  - destruct (splitlines rest) as [|line lines].
    + cbn. repeat split; [discriminate | congruence].
    + destruct IH as (Hne & Hnl & Hwf). cbn [well_formed].
      repeat split; [discriminate | | exact Hwf].
      intro H. rewrite (ends_with_newline_cons c line Hne). auto.
Qed.

(** After the first line the loop stops at the first blank line. *)
Lemma raw_read_loop_until_blank (pending : list string) :
  forall (prev : string) (lines : list string),
    well_formed pending ->
    (pending <> [] -> ends_with_newline prev = true) ->
    PyStr.join (fst (raw_read_loop prev pending lines))
    = (PyStr.join lines ++ PyStr.join (fst (until_blank pending)))%string
    /\ snd (raw_read_loop prev pending lines) = snd (until_blank pending).
Proof.
  induction pending as [|line pending IH]; intros prev lines Hwf Hprev.
  - cbn. now rewrite join_app.
  - destruct Hwf as (Hne & Hnl & Hwf).
    cbn [raw_read_loop until_blank].
    apply String.eqb_neq in Hne. rewrite Hne.
    rewrite Hprev by discriminate. cbn [andb]. fold (is_blank line).
    destruct (is_blank line).
    + cbn. now rewrite join_app.
    + destruct (IH line (lines ++ [line]) Hwf Hnl) as [Hj Hu].
      rewrite Hj, Hu. destruct (until_blank pending) as [taken unread].
      cbn [fst snd]. split; [|reflexivity].
      rewrite join_app. cbn. rewrite append_empty.
      now rewrite append_assoc.
Qed.

Lemma raw_read_receive (self : GtpBot) :
  Bot.raw_read self
  = (set_p self (mkProcess (snd (receive (stdout (p self)))) (stdin (p self))
                      (lifetime (p self))),
     Ok (fst (receive (stdout (p self))))).
Proof.
  unfold Bot.raw_read, receive.
  pose proof (splitlines_well_formed (stdout (p self))) as Hwf.
  destruct (splitlines (stdout (p self))) as [|first lines]; [reflexivity|].
  destruct Hwf as (Hne & Hnl & Hwf).
  cbn [raw_read_loop app]. apply String.eqb_neq in Hne. rewrite Hne.
  change (ends_with_newline "######") with false. cbn [andb].
  destruct (raw_read_loop_until_blank lines first [first] Hwf Hnl) as [Hj Hu].
  destruct (raw_read_loop first lines [first]) as [got unread].
  destruct (until_blank lines) as [taken unread'].
  cbn [fst snd] in *. subst unread'. rewrite Hj.
  cbn. now rewrite append_empty.
Qed.

End Receive.

Lemma until_blank_none (lines : list string) :
  ~ In PyStr.nl lines -> until_blank lines = (lines, []).
Proof.
  induction lines as [|line lines IH]; intro Hno; [reflexivity|].
  cbn [until_blank]. unfold is_blank.
  destruct (String.eqb_spec line PyStr.nl) as [->|_].
  - destruct Hno. now left.
  - rewrite IH; [reflexivity|]. intro Hin. apply Hno. now right.
Qed.

Lemma until_blank_first (before after : list string) :
  ~ In PyStr.nl before ->
  until_blank (before ++ PyStr.nl :: after) = (before ++ [PyStr.nl], after).
Proof.
  induction before as [|line before IH]; intro Hno; [reflexivity|].
  cbn [app until_blank]. unfold is_blank.
  destruct (String.eqb_spec line PyStr.nl) as [->|_].
  - destruct Hno. now left.
  - rewrite IH; [reflexivity|]. intro Hin. apply Hno. now right.
Qed.

(** C8, as amended. Receive returns the lines it has read, joined, and
    leaves the others unread. When a blank line comes after the first line,
    it reads up to and including the first such blank line, whether the
    line before that one is blank or not; when none does, it reads up to
    the end of the output. A blank line that is the first line read never
    ends the read. *)
Theorem raw_read_stops_at_blank_line (self : GtpBot) :
  Bot.raw_read self
  = (set_p self (mkProcess (snd (receive (stdout (p self)))) (stdin (p self))
                      (lifetime (p self))),
     Ok (fst (receive (stdout (p self)))))
  /\ (forall (first : string) (before after : list string),
        splitlines (stdout (p self)) = first :: before ++ PyStr.nl :: after ->
        ~ In PyStr.nl before ->
        receive (stdout (p self))
        = (PyStr.join (first :: before ++ [PyStr.nl]), PyStr.join after))
  /\ (~ In PyStr.nl (tl (splitlines (stdout (p self)))) ->
      receive (stdout (p self)) = (stdout (p self), EmptyString)).
Proof.
  split; [apply raw_read_receive | split].
  - intros first before after Hlines Hno.
    unfold receive. rewrite Hlines.
    now rewrite (until_blank_first before after Hno).
  - intro Hno. unfold receive.
    pose proof (join_splitlines (stdout (p self))) as Hjoin.
    destruct (splitlines (stdout (p self))) as [|line lines].
    + now rewrite <- Hjoin.
    + cbn [tl] in Hno. rewrite (until_blank_none lines Hno).
      now rewrite Hjoin.
Qed.

Lemma raw_read_stops_at_blank_line_witness :
  receive ("= ok" ++ PyStr.nl ++ PyStr.nl ++ "= next" ++ PyStr.nl ++ PyStr.nl)
  = (("= ok" ++ PyStr.nl ++ PyStr.nl)%string,
     ("= next" ++ PyStr.nl ++ PyStr.nl)%string).
Proof.
  apply (proj1 (proj2 (raw_read_stops_at_blank_line
           (mkGtpBot "B" false
              (mkProcess ("= ok" ++ PyStr.nl ++ PyStr.nl
                          ++ "= next" ++ PyStr.nl ++ PyStr.nl) [] None)
              [] "")))
           ("= ok" ++ PyStr.nl)%string []
           [("= next" ++ PyStr.nl)%string; PyStr.nl]);
    [reflexivity | simpl; tauto].
Defined.

(** C8 as stated fails: two blank lines that open the output end the read,
    although no line with content comes before the second one. *)
Lemma raw_read_blank_after_blank :
  snd (Bot.raw_read (mkGtpBot "B" false (mkProcess Grid.blank_blank_ok [] None) [] ""))
  = Ok (PyStr.nl ++ PyStr.nl)%string
  /\ fst (receive_stated Grid.blank_blank_ok) = Grid.blank_blank_ok.
Proof. split; reflexivity. Qed.

(** ** Move Resolver *)

Section Resolver.

Context {G : Gomill}.
Variable args : args_t.

Lemma randomize_walk_deflection (epsilon u : float) (move : point) :
  randomize_walk directions 0 u epsilon move = deflection epsilon u move.
Proof.
  unfold deflection, neighbours, north, east, south, west, directions.
  cbn [randomize_walk find cumulative].
  destruct (u <=? 0 + epsilon)%float; [cbn [nth]; f_equal; lia|].
  destruct (u <=? 0 + epsilon + epsilon)%float; [cbn [nth]; f_equal; lia|].
  destruct (u <=? 0 + epsilon + epsilon + epsilon)%float;
    [cbn [nth]; f_equal; lia|].
  destruct (u <=? 0 + epsilon + epsilon + epsilon + epsilon)%float;
    [cbn [nth]; f_equal; lia | reflexivity].
Qed.

Lemma randomize_move_deflection (move : point) (st : state) :
  randomize_move args move st
  = (drawn st, Ok (deflection (epsilon args) (next_random st) move)).
Proof.
  unfold randomize_move, bind, random, ret.
  now rewrite randomize_walk_deflection.
Qed.

(** A draw above zero is not met by a sum that is zero. *)
Lemma positive_not_leb_zero (u : float) :
  (0 <? u)%float = true -> (u <=? 0)%float = false.
Proof.
  rewrite ltb_spec, leb_spec. change (Prim2SF 0) with (S754_zero false).
  destruct (Prim2SF u) as [s|s| |s m e]; try destruct s; cbn; congruence.
Qed.

Lemma deflection_zero_epsilon (u : float) (move : point) :
  (0 <? u)%float = true -> deflection 0 u move = move.
Proof.
  intro Hu. unfold deflection. cbn [find cumulative].
  change (0 + 0 + 0 + 0 + 0)%float with 0%float.
  change (0 + 0 + 0 + 0)%float with 0%float.
  change (0 + 0 + 0)%float with 0%float.
  change (0 + 0)%float with 0%float.
  now rewrite (positive_not_leb_zero u Hu).
Qed.

Lemma point_eqb_eq (a c : point) : point_eqb a c = true <-> a = c.
Proof.
  destruct a as [ar ac], c as [cr cc]. unfold point_eqb; cbn [fst snd].
  rewrite andb_true_iff, !Z.eqb_eq. split; [intros [-> ->] | intro H].
  - reflexivity.
  - now inversion H.
Qed.

Lemma point_eqb_refl (a : point) : point_eqb a a = true.
Proof. now apply point_eqb_eq. Qed.

Lemma is_ko_invalid (st : state) (pt : point) (color : string) :
  is_ko pt (ko_move st) = true -> is_move_valid st pt color = false.
Proof. intro H. unfold is_move_valid. now rewrite H. Qed.

(** The resolver on a text that is not a pass and names the point
    [move]. *)
Lemma response2move_vertex (response : string) (move : point) (st : state) :
  String.eqb (PyStr.lower response) "pass" = false ->
  move_from_vertex response (side (b st)) = Ok move ->
  let color := color (bot (player st) (bots st)) in
  let landed := deflection (epsilon args) (next_random st) move in
  response2move args response st
  = if negb (allow_invalid args) && negb (is_move_valid st move color)
    then (st, Ok (false, Skip))
    else if negb (is_move_valid st landed color)
    then (drawn st, Ok (false, Skip))
    else (drawn st, Ok (point_eqb move landed, Vertex landed)).
Proof.
  intros Hpass Hmove color landed.
  unfold response2move. rewrite Hpass.
  unfold bind at 1, get. unfold bind at 1, lift. rewrite Hmove.
  fold color.
  destruct (negb (allow_invalid args) && negb (is_move_valid st move color));
    [reflexivity|].
  unfold bind. rewrite randomize_move_deflection. fold landed.
  destruct (negb (is_move_valid st landed color)); reflexivity.
Qed.

End Resolver.

(** C4. Deflection draws once and walks the neighbours north, east, south
    and west in that order, adding epsilon to the running sum at each step:
    it returns the first neighbour whose cumulative sum meets or exceeds
    the draw, and the original point when none of the four sums does. Once
    a cumulative sum has met the draw, the later neighbours and the
    original point are out of reach. *)
Theorem randomize_move_cumulative_walk {G : Gomill} (args : args_t)
  (move : point) (st : state) :
  randomize_move args move st
  = (drawn st, Ok (deflection (epsilon args) (next_random st) move))
  /\ directions = [(1, 0); (0, 1); (-1, 0); (0, -1)]%Z
  /\ forall k : nat,
       1 <= k <= 4 ->
       (next_random st <=? cumulative (epsilon args) k)%float = true ->
       In (deflection (epsilon args) (next_random st) move)
          (firstn k (neighbours move)).
Proof.
  split; [apply randomize_move_deflection | split; [reflexivity|]].
  intros k Hk Hmet. unfold deflection, neighbours. cbn [find cumulative].
  destruct k as [|[|[|[|[|k]]]]]; try lia; cbn [cumulative] in Hmet;
    repeat match goal with
           | |- context [if ?c then _ else _] => destruct c eqn:?
           end;
    cbn [nth firstn In]; auto; congruence.
Qed.

Lemma randomize_move_cumulative_walk_witness :
  In (deflection 0.25 0.5 (2, 2)%Z) (firstn 2 (neighbours (2, 2)%Z)).
Proof.
  apply (proj2 (proj2 (@randomize_move_cumulative_walk Grid.gomill Grid.args0
           (2, 2)%Z (Grid.position None (fun _ => 0.5%float)))) 2);
    [lia | reflexivity].
Defined.

(** C3, as amended. With epsilon 0 the resolver never deflects a legal
    proposal when the draw is above zero: it commits the proposed point and
    reports a match. A draw of exactly zero is met by the first sum, which
    is zero: the proposal is thrown to its northern neighbour, which is
    committed when it is legal and gives a skip when it is not. *)
Theorem zero_epsilon_never_deflects {G : Gomill} (args : args_t)
  (response : string) (move : point) (st : state) :
  epsilon args = 0%float ->
  String.eqb (PyStr.lower response) "pass" = false ->
  move_from_vertex response (side (b st)) = Ok move ->
  is_move_valid st move (color (bot (player st) (bots st))) = true ->
  ((0 <? next_random st)%float = true ->
   response2move args response st = (drawn st, Ok (true, Vertex move)))
  /\ (next_random st = 0%float ->
      response2move args response st
      = (drawn st,
         Ok (false,
             if is_move_valid st (north move) (color (bot (player st) (bots st)))
             then Vertex (north move) else Skip))).
Proof.
  intros Heps Hpass Hmove Hvalid.
  rewrite (response2move_vertex args response move st Hpass Hmove).
  rewrite Heps, Hvalid, andb_false_r. cbn [negb]. split.
  - intro Hu. rewrite (deflection_zero_epsilon _ move Hu), Hvalid.
    cbn [negb]. now rewrite point_eqb_refl.
  - intros ->. change (deflection 0 0 move) with (north move).
    destruct (is_move_valid st (north move) _); [|reflexivity].
    cbn [negb]. replace (point_eqb move (north move)) with false;
      [reflexivity|].
    symmetry. unfold point_eqb, north. cbn [fst snd].
    apply andb_false_iff. left. apply Z.eqb_neq. lia.
Qed.

Lemma zero_epsilon_never_deflects_witness :
  response2move (mkArgs 9 7.5 0 false) "C3"
                (Grid.position None (fun _ => 0.5%float))
  = (drawn (Grid.position None (fun _ => 0.5%float)),
     Ok (true, Vertex (2, 2)%Z)).
Proof.
  apply (proj1 (@zero_epsilon_never_deflects Grid.gomill
                  (mkArgs 9 7.5 0 false) "C3" (2, 2)%Z
                  (Grid.position None (fun _ => 0.5%float))
                  eq_refl eq_refl eq_refl eq_refl)).
  reflexivity.
Defined.

(** C3 as stated fails at the draw 0: with epsilon 0 the legal proposal C3
    on an empty board is thrown one row up, to C4. *)
Lemma zero_epsilon_zero_draw_deflects :
  epsilon (mkArgs 9 7.5 0 false) = 0%float
  /\ is_move_valid (Grid.position None (fun _ => 0%float)) (2, 2)%Z "B" = true
  /\ response2move (mkArgs 9 7.5 0 false) "C3"
                   (Grid.position None (fun _ => 0%float))
     = (drawn (Grid.position None (fun _ => 0%float)),
        Ok (false, Vertex (3, 2)%Z)).
Proof. repeat split. Qed.

(** C7. A point equal to the ko point is never legal. A proposal of the ko
    point resolves to a skip when illegal proposals are not tolerated,
    whatever epsilon and the draw are. When they are tolerated it resolves
    to a skip unless the deflection lands on a legal point, which is then
    another point than the proposal and is the committed move. A legal
    proposal that the deflection lands on the ko point resolves to a
    skip. *)
Theorem ko_point_is_rejected {G : Gomill} (args : args_t)
  (response : string) (move : point) (st : state) :
  String.eqb (PyStr.lower response) "pass" = false ->
  move_from_vertex response (side (b st)) = Ok move ->
  let color := color (bot (player st) (bots st)) in
  let landed := deflection (epsilon args) (next_random st) move in
  (forall pt : point,
      is_ko pt (ko_move st) = true -> is_move_valid st pt color = false)
  /\ (is_ko move (ko_move st) = true ->
      allow_invalid args = false ->
      response2move args response st = (st, Ok (false, Skip)))
  /\ (is_ko move (ko_move st) = true ->
      allow_invalid args = true ->
      response2move args response st
      = (drawn st,
         Ok (false, if is_move_valid st landed color
                    then Vertex landed else Skip))
      /\ (is_move_valid st landed color = true -> landed <> move))
  /\ (is_move_valid st move color = true ->
      is_ko landed (ko_move st) = true ->
      response2move args response st = (drawn st, Ok (false, Skip))).
Proof.
  intros Hpass Hmove color landed.
  pose proof (response2move_vertex args response move st Hpass Hmove) as Hres.
  cbv zeta in Hres. fold color landed in Hres.
  split; [intros pt; apply is_ko_invalid|].
  split; [|split].
  - intros Hko Hallow. rewrite Hres, Hallow.
    now rewrite (is_ko_invalid st move color Hko).
  - intros Hko Hallow. rewrite Hres, Hallow. cbn [negb andb].
    assert (Hne : is_move_valid st landed color = true -> landed <> move).
    { intros Hvalid ->. rewrite (is_ko_invalid st move color Hko) in Hvalid.
      discriminate. }
    split; [|exact Hne].
    destruct (is_move_valid st landed color) eqn:Hvalid; [|reflexivity].
    cbn [negb]. destruct (point_eqb move landed) eqn:Heq; [|reflexivity].
    apply point_eqb_eq in Heq. now destruct (Hne eq_refl).
  - intros Hvalid Hko. rewrite Hres, Hvalid. rewrite andb_false_r.
    now rewrite (is_ko_invalid st landed color Hko).
Qed.

Lemma ko_point_is_rejected_witness :
  response2move (mkArgs 9 7.5 0.25 false) "C3"
                (Grid.position (Some (2, 2)%Z) (fun _ => 0.5%float))
  = (Grid.position (Some (2, 2)%Z) (fun _ => 0.5%float), Ok (false, Skip)).
Proof.
  apply (@ko_point_is_rejected Grid.gomill (mkArgs 9 7.5 0.25 false) "C3"
           (2, 2)%Z (Grid.position (Some (2, 2)%Z) (fun _ => 0.5%float)));
    reflexivity.
Defined.

(** ** Engine Channel *)

Section Channel.

Lemma write_eq (gtp_cmd : string) (self : GtpBot) :
  exited (p self) = false ->
  Bot.write gtp_cmd self
  = (set_p self (mkProcess (stdout (p self))
                           (stdin (p self) ++ [(gtp_cmd ++ PyStr.nl)%string])
                           (shorter (lifetime (p self)))),
     Ok tt).
Proof. intro H. unfold Bot.write. now rewrite H. Qed.

Lemma write_broken (gtp_cmd : string) (self : GtpBot) :
  exited (p self) = true ->
  Bot.write gtp_cmd self = (self, Raise BrokenPipeError).
Proof. intro H. unfold Bot.write. now rewrite H. Qed.

Lemma read_eq (self : GtpBot) :
  Bot.read self
  = (after_io self [], gtp_cut_response (fst (receive (stdout (p self))))).
Proof.
  unfold Bot.read, bind, lift, after_io. rewrite raw_read_receive.
  now rewrite app_nil_r.
Qed.

Lemma interact_eq (gtp_cmd : string) (self : GtpBot) :
  exited (p self) = false ->
  Bot.interact gtp_cmd self
  = (after_io self [(gtp_cmd ++ PyStr.nl)%string],
     gtp_cut_response (fst (receive (stdout (p self))))).
Proof.
  intro H. unfold Bot.interact, bind. rewrite (write_eq _ _ H), read_eq.
  unfold after_io, set_p. cbn. now rewrite app_nil_r.
Qed.

Lemma interact_broken (gtp_cmd : string) (self : GtpBot) :
  exited (p self) = true ->
  Bot.interact gtp_cmd self = (self, Raise BrokenPipeError).
Proof.
  intro H. unfold Bot.interact, bind. now rewrite (write_broken _ _ H).
Qed.

Lemma until_blank_partition (lines : list string) :
  (PyStr.join (fst (until_blank lines))
   ++ PyStr.join (snd (until_blank lines)))%string
  = PyStr.join lines.
Proof.
  induction lines as [|line lines IH]; [reflexivity|].
  cbn [until_blank]. destruct (is_blank line).
  - cbn. now rewrite append_empty.
  - destruct (until_blank lines) as [taken unread]. cbn [fst snd] in *.
    cbn. fold (PyStr.join taken). fold (PyStr.join lines).
    now rewrite append_assoc, IH.
Qed.

(** What is read and what is left unread make up the pending text. *)
Lemma receive_partition (text : string) :
  (fst (receive text) ++ snd (receive text))%string = text.
Proof.
  unfold receive. rewrite <- (join_splitlines text) at 3.
  destruct (splitlines text) as [|first lines]; [reflexivity|].
  pose proof (until_blank_partition lines) as H.
  destruct (until_blank lines) as [taken unread]. cbn [fst snd] in *.
  cbn. fold (PyStr.join taken). fold (PyStr.join lines).
  now rewrite append_assoc, H.
Qed.

Lemma append_length (s t : string) :
  String.length (s ++ t) = String.length s + String.length t.
Proof. induction s as [|c s IH]; cbn; [reflexivity | now rewrite IH]. Qed.

Lemma receive_length (text : string) :
  String.length (fst (receive text)) + String.length (snd (receive text))
  = String.length text.
Proof. now rewrite <- append_length, receive_partition. Qed.






(** A response that the framer accepts is not empty. *)
Lemma framed_not_empty (response : string) (v : bool * string) :
  gtp_cut_response response = Ok v -> 0 < String.length response.
Proof. destruct response; [discriminate | cbn; lia]. Qed.

End Channel.

(** ** Game Loop *)

Section GameLoop.

Context {G : Gomill}.
Variable args : args_t.

Lemma bind_Ok {S A B} (m : M S A) (k : A -> M S B) (s s' : S) (v : B) :
  bind m k s = (s', Ok v) ->
  exists s1 a, m s = (s1, Ok a) /\ k a s1 = (s', Ok v).
Proof.
  unfold bind. destruct (m s) as [s1 [a|e]]; [eauto | discriminate].
Qed.

Lemma on_bot_eq {A} (w : which) (m : M GtpBot A) (st : state) :
  on_bot w m st
  = (set_bots (set_bot w (fst (m (bot w (bots st)))) (bots st)) st,
     snd (m (bot w (bots st)))).
Proof. unfold on_bot, on. now destruct (m (bot w (bots st))). Qed.

(** The turn that reaches its end, step by step. *)
Lemma turn_Ok (st st' : state) (move : move_t) (ctl : control) :
  turn args st = (st', Ok (move, ctl)) ->
  let color := color (bot (player st) (bots st)) in
  let report :=
    ("frisbee-play " ++ color ++ " " ++ format_move move)%string in
  exists (s1 s2 s3 s4 s5 s6 s7 : state) (response : string) (flag : bool)
         (r1 r2 : bool * string),
    on_player (Bot.write ("frisbee-reg_genmove " ++ color)%string) st
    = (s1, Ok tt)
    /\ on_player Bot.read s1 = (s2, Ok (true, response))
    /\ response2move args response s2 = (s3, Ok (flag, move))
    /\ on_player (modify (set_has_passed (is_pass move))) s3 = (s4, Ok tt)
    /\ apply_move move s4 = (s5, Ok tt)
    /\ on_player (Bot.interact report) s5 = (s6, Ok r1)
    /\ on_opponent (Bot.interact report) s6 = (s7, Ok r2)
    /\ (st', ctl)
       = if has_passed (bot (player s7) (bots s7))
            && has_passed (bot (opponent s7) (bots s7))
         then (s7, Break) else (next_turn s7, Continue).
Proof.
  intros H color report. unfold turn in H.
  apply bind_Ok in H as (s0 & st0 & Hget & H).
  unfold get in Hget. injection Hget as <- <-.
  apply bind_Ok in H as (s1 & [] & H1 & H).
  apply bind_Ok in H as (s2 & [success response] & H2 & H).
  apply bind_Ok in H as (s2' & [] & Hassert & H).
  destruct success; [|discriminate].
  unfold assert, ret in Hassert. injection Hassert as <-.
  apply bind_Ok in H as (s3 & [flag move'] & H3 & H).
  apply bind_Ok in H as (s4 & [] & H4 & H).
  apply bind_Ok in H as (s5 & [] & H5 & H).
  apply bind_Ok in H as (s6 & r1 & H6 & H).
  apply bind_Ok in H as (s7 & r2 & H7 & H).
  apply bind_Ok in H as (s7' & st7 & Hget & H).
  unfold get in Hget. injection Hget as <- <-.
  exists s1, s2, s3, s4, s5, s6, s7, response, flag, r1, r2.
  destruct (has_passed (bot (player s7) (bots s7))
            && has_passed (bot (opponent s7) (bots s7))).
  - unfold ret in H. injection H as <- <- <-. repeat split; assumption.
  - unfold bind, modify, ret in H. injection H as <- <- <-.
    repeat split; assumption.
Qed.

(** The resolver and the board update leave the bots and the turn as they
    are. *)
Lemma response2move_frame (response : string) (st st' : state)
  (r : result (bool * move_t)) :
  response2move args response st = (st', r) ->
  bots st' = bots st /\ player st' = player st.
Proof.
  unfold response2move.
  destruct (String.eqb (PyStr.lower response) "pass");
    [intro H; now injection H as <- _|].
  unfold bind at 1, get. unfold bind at 1, lift.
  destruct (move_from_vertex response (side (b st))) as [move|e];
    [|intro H; now injection H as <- _].
  destruct (negb (allow_invalid args) && negb (is_move_valid st move _));
    [intro H; now injection H as <- _|].
  unfold bind. rewrite randomize_move_deflection.
  match goal with
  | |- context [if ?c then _ else _] => destruct c
  end; intro H; now injection H as <- _.
Qed.

Lemma apply_move_frame (move : move_t) (st st' : state) (r : result unit) :
  apply_move move st = (st', r) ->
  bots st' = bots st /\ player st' = player st.
Proof.
  unfold apply_move, bind, get, modify, raise.
  destruct move as [| |pt]; try (intro H; now injection H as <- _).
  destruct (play (b st) (fst pt) (snd pt) _);
    intro H; now injection H as <- _.
Qed.







End GameLoop.




(** ** The loop comes to an end *)

Section Termination.

Context {G : Gomill}.
Variable args : args_t.

Lemma unread_set_bot (w : which) (self : GtpBot) (e : engines) :
  unread (set_bot w self e) + pending (bot w e) = unread e + pending self.
Proof. unfold unread, pending. destruct w; cbn; lia. Qed.

Lemma pending_after_io (self : GtpBot) (written : list string) :
  pending (after_io self written)
  + String.length (fst (receive (stdout (p self))))
  = pending self.
Proof.
  unfold pending, after_io. cbn.
  pose proof (receive_length (stdout (p self))). lia.
Qed.

Lemma on_bot_write_unread (w : which) (gtp_cmd : string) (st st' : state)
  (r : result unit) :
  on_bot w (Bot.write gtp_cmd) st = (st', r) ->
  unread (bots st') = unread (bots st).
Proof.
  intro H. rewrite on_bot_eq in H. injection H as <- _.
  cbn [bots set_bots].
  pose proof (unread_set_bot w (fst (Bot.write gtp_cmd (bot w (bots st))))
                (bots st)) as Hu.
  assert (Hp : pending (fst (Bot.write gtp_cmd (bot w (bots st))))
               = pending (bot w (bots st))).
  { unfold Bot.write. now destruct (exited (p (bot w (bots st)))). }
  lia.
Qed.

Lemma on_bot_read_unread (w : which) (st st' : state) (v : bool * string) :
  on_bot w Bot.read st = (st', Ok v) ->
  unread (bots st') < unread (bots st).
Proof.
  intro H. rewrite on_bot_eq, read_eq in H. cbn [fst snd] in H.
  injection H as <- Hv. cbn [bots set_bots].
  pose proof (unread_set_bot w (after_io (bot w (bots st)) []) (bots st)).
  pose proof (pending_after_io (bot w (bots st)) []).
  pose proof (framed_not_empty _ _ Hv). lia.
Qed.

Lemma on_bot_interact_unread (w : which) (gtp_cmd : string) (st st' : state)
  (r : result (bool * string)) :
  on_bot w (Bot.interact gtp_cmd) st = (st', r) ->
  unread (bots st') <= unread (bots st).
Proof.
  intro H. rewrite on_bot_eq in H. injection H as <- _.
  cbn [bots set_bots].
  pose proof (unread_set_bot w (fst (Bot.interact gtp_cmd (bot w (bots st))))
                (bots st)) as Hu.
  destruct (exited (p (bot w (bots st)))) eqn:Hx.
  - rewrite (interact_broken _ _ Hx) in *. cbn [fst] in *. lia.
  - rewrite (interact_eq _ _ Hx) in *. cbn [fst] in *.
    pose proof (pending_after_io (bot w (bots st))
      [(gtp_cmd ++ PyStr.nl)%string]). lia.
Qed.

Lemma on_bot_set_flag_unread (w : which) (v : bool) (st st' : state)
  (r : result unit) :
  on_bot w (modify (set_has_passed v)) st = (st', r) ->
  unread (bots st') = unread (bots st).
Proof.
  intro H. rewrite on_bot_eq in H. injection H as <- _.
  cbn [bots set_bots fst modify].
  pose proof (unread_set_bot w (set_has_passed v (bot w (bots st))) (bots st))
    as Hu.
  unfold pending in Hu. cbn in Hu. lia.
Qed.

(** A turn after which the loop goes on has read some of the pending
    text. *)
Lemma turn_reads (st st' : state) (move : move_t) (ctl : control) :
  turn args st = (st', Ok (move, ctl)) ->
  unread (bots st') < unread (bots st).
Proof.
  intro H. apply turn_Ok in H. cbv zeta in H.
  destruct H as (s1 & s2 & s3 & s4 & s5 & s6 & s7 & response & flag & r1
                 & r2 & H1 & H2 & H3 & H4 & H5 & H6 & H7 & Hend).
  apply on_bot_write_unread in H1. apply on_bot_read_unread in H2.
  apply (response2move_frame args) in H3 as [B3 _].
  apply on_bot_set_flag_unread in H4.
  apply apply_move_frame in H5 as [B5 _].
  apply on_bot_interact_unread in H6. apply on_bot_interact_unread in H7.
  assert (unread (bots s7) < unread (bots st)) by (rewrite B5, B3 in *; lia).
  destruct (has_passed (bot (player s7) (bots s7))
            && has_passed (bot (opponent s7) (bots s7)));
    injection Hend as -> _; [assumption | exact H].
Qed.

(** With more turns allowed than characters pending, the loop is left. *)
Lemma game_loop_exits (fuel : nat) :
  forall st : state,
    unread (bots st) < fuel ->
    exists (st' : state) (r : result unit),
      game_loop args fuel st = Some (st', r).
Proof.
  induction fuel as [|fuel IH]; intros st Hfuel; [lia|].
  cbn [game_loop].
  destruct (turn args st) as [st1 [[move [|]]|e]] eqn:Hturn; eauto.
  apply IH. apply turn_reads in Hturn. lia.
Qed.

End Termination.

Section Exit.

Context {G : Gomill}.
Variable fmt_1f : float -> string.
Variable args : args_t.

(** A method call that leaves the bot as it is leaves the state as it
    is. *)
Lemma on_bot_idle {A} (w : which) (m : M GtpBot A) (st : state)
  (r : result A) :
  m (bot w (bots st)) = (bot w (bots st), r) -> on_bot w m st = (st, r).
Proof.
  intro H. rewrite on_bot_eq, H. cbn [fst snd].
  destruct st as [[bl wh] bd pl ko mv tape calls]. now destruct w.
Qed.

(** The [finally] clause, case by case: the write to the engine to move
    comes first, and the write to the other engine only when the first one
    has not failed. *)
Lemma quit_both_cases (st : state) :
  if exited (p (bot (player st) (bots st))) then
    quit_both st = (st, Raise BrokenPipeError)
  else
    exists (st' : state) (r : result unit),
      quit_both st = (st', r)
      /\ sent st' (player st) = sent st (player st) ++ [quit_line]
      /\ if exited (p (bot (opponent st) (bots st))) then
           bot (opponent st) (bots st') = bot (opponent st) (bots st)
           /\ r = Raise BrokenPipeError
         else
           sent st' (opponent st) = sent st (opponent st) ++ [quit_line]
           /\ r = Ok tt.
Proof.
  unfold quit_both, bind, on_player, on_opponent, opponent.
  destruct (exited (p (bot (player st) (bots st)))) eqn:Hme.
  - now rewrite (on_bot_idle _ _ _ _ (write_broken "quit" _ Hme)).
  - rewrite on_bot_eq, (write_eq _ _ Hme). cbn [fst snd].
    assert (Hyou :
      bot (other (player st))
          (set_bot (player st)
             (set_p (bot (player st) (bots st))
                (mkProcess (stdout (p (bot (player st) (bots st))))
                   (stdin (p (bot (player st) (bots st))) ++ [quit_line])
                   (shorter (lifetime (p (bot (player st) (bots st)))))))
             (bots st))
      = bot (other (player st)) (bots st))
      by now destruct (player st).
    rewrite on_bot_eq. cbn [player set_bots bots].
    change ("quit" ++ PyStr.nl)%string with quit_line. rewrite Hyou.
    destruct (exited (p (bot (other (player st)) (bots st)))) eqn:Hx.
    + rewrite (write_broken _ _ Hx). cbn [fst snd].
      eexists _, _. split; [reflexivity|]. unfold sent.
      destruct (player st); cbn; auto.
    + rewrite (write_eq _ _ Hx). cbn [fst snd].
      eexists _, _. split; [reflexivity|]. unfold sent.
      destruct (player st); cbn; auto.
Qed.

(** [main] always comes to an exit. *)
Lemma main_exits (black_proc white_proc : process) (tape : nat -> float) :
  main fmt_1f args black_proc white_proc tape <> None.
Proof.
  unfold main.
  destruct (Bot.init black_proc "B") as [bl [[]|e]]; [|discriminate].
  destruct (Bot.init white_proc "W") as [wh [[]|e]]; [|discriminate].
  destruct (setup fmt_1f args (mkEngines bl wh)) as [e [[]|ex]];
    [|discriminate].
  destruct (Board_new (boardsize args)) as [board|ex]; [|discriminate].
  unfold play_game.
  destruct (game_loop_exits args (S (unread e))
              (mkState e board TheBlack None 0 tape 0)) as (st' & r & ->);
    [cbn; lia | discriminate].
Qed.

End Exit.




(** An engine that exits is sent no [quit], and keeps the other one from
    being sent it: the black engine exits once the start-up is over, the
    first write of the loop raises [BrokenPipeError], the write to the
    black engine in the [finally] clause raises it again, and the white
    engine, which is still running, is never sent [quit]. *)
Example exited_engine_stops_the_quits :
  @main Grid.gomill Grid.fmt_komi Grid.args0
        (Grid.says_until 4 ["= name"; "= black"; "="; "="])
        (Grid.says ["= name"; "= white"; "="; "="])
        (fun _ => 0.5%float)
  = Some ((mkProcess ""
             (map (fun c => c ++ PyStr.nl)%string
                  ["list_commands"; "name"; "boardsize 9"; "komi 7.5"])
             (Some 0),
           mkProcess ""
             (map (fun c => c ++ PyStr.nl)%string
                  ["list_commands"; "name"; "boardsize 9"; "komi 7.5"])
             None),
          Raise BrokenPipeError).
Proof. vm_compute. reflexivity. Qed.

(** ** Commands whose answer is not examined *)




(** ** Commands of a whole game *)

(** All the commands the two engines are sent in a game that both pass at
    once. *)
Example passing_game_transcript :
  option_map (fun exit => (stdin (fst (fst exit)), stdin (snd (fst exit))))
    (@main Grid.gomill Grid.fmt_komi Grid.args0
           Grid.black_passer Grid.white_passer (fun _ => 0.5%float))
  = Some
      (map (fun c => c ++ PyStr.nl)%string
         ["list_commands"; "name"; "boardsize 9"; "komi 7.5";
          "frisbee-reg_genmove B"; "frisbee-play B pass";
          "frisbee-play W pass"; "quit"],
       map (fun c => c ++ PyStr.nl)%string
         ["list_commands"; "name"; "boardsize 9"; "komi 7.5";
          "frisbee-play B pass"; "frisbee-reg_genmove W";
          "frisbee-play W pass"; "quit"]).
Proof. vm_compute. reflexivity. Qed.

Section Invariants.

Context {S : Type} (I : S -> Prop).

Lemma stable_ret {A} (a : A) : stable I (ret a).
Proof. intros s Hs. exact Hs. Qed.

Lemma stable_raise {A} (e : exn) : stable I (@raise S A e).
Proof. intros s Hs. exact Hs. Qed.

Lemma stable_lift {A} (r : result A) : stable I (lift r).
Proof. intros s Hs. exact Hs. Qed.

Lemma stable_get : stable I get.
Proof. intros s Hs. exact Hs. Qed.

Lemma stable_assert (c : bool) : stable I (assert c).
Proof. destruct c; [apply stable_ret | apply stable_raise]. Qed.

Lemma stable_modify (f : S -> S) :
  (forall s, I s -> I (f s)) -> stable I (modify f).
Proof. intros Hf s Hs. now apply Hf. Qed.

Lemma stable_bind {A B} (m : M S A) (k : A -> M S B) :
  stable I m -> (forall a, stable I (k a)) -> stable I (bind m k).
Proof.
  intros Hm Hk s Hs. unfold bind. specialize (Hm s Hs).
  destruct (m s) as [s1 [a|e]]; cbn [fst] in *; [|exact Hm].
  now apply Hk.
Qed.

Lemma stable_finally {A} (cleanup : M S unit) (exit : S * result A) :
  stable I cleanup -> I (fst exit) -> I (fst (finally cleanup exit)).
Proof.
  intros Hc Hs. destruct exit as [s r]. unfold finally. specialize (Hc s Hs).
  now destruct (cleanup s) as [s' [[]|e]].
Qed.

End Invariants.

Section NoEpsilon.

Lemma write_clean (gtp_cmd : string) :
  not_epsilon (gtp_cmd ++ PyStr.nl) -> stable bot_clean (Bot.write gtp_cmd).
Proof.
  intros Hcmd self Hs. unfold Bot.write.
  destruct (exited (p self)); [exact Hs|]. unfold bot_clean, no_epsilon_sent.
  cbn. apply Forall_app. split; [exact Hs | now constructor].
Qed.

Lemma read_clean : stable bot_clean Bot.read.
Proof.
  intros self Hs. rewrite read_eq. unfold bot_clean, no_epsilon_sent.
  cbn. now rewrite app_nil_r.
Qed.

Lemma interact_clean (gtp_cmd : string) :
  not_epsilon (gtp_cmd ++ PyStr.nl) -> stable bot_clean (Bot.interact gtp_cmd).
Proof.
  intro Hcmd. unfold Bot.interact.
  apply stable_bind; [now apply write_clean | intros _; apply read_clean].
Qed.

Lemma set_field_clean (f : GtpBot -> GtpBot) :
  (forall self, p (f self) = p self) -> stable bot_clean (modify f).
Proof.
  intro Hf. apply stable_modify. intros self Hs. unfold bot_clean.
  now rewrite Hf.
Qed.

Ltac stable_step :=
  match goal with
  | |- stable _ (bind _ _) => apply stable_bind; [|intros ?]
  | |- stable _ (ret _) => apply stable_ret
  | |- stable _ (raise _) => apply stable_raise
  | |- stable _ (lift _) => apply stable_lift
  | |- stable _ get => apply stable_get
  | |- stable _ (assert _) => apply stable_assert
  | |- stable _ (let (_, _) := ?x in _) => destruct x
  end.

Lemma init_clean (proc : process) (color : string) :
  no_epsilon_sent proc -> bot_clean (fst (Bot.init proc color)).
Proof.
  intro Hproc. unfold Bot.init.
  match goal with
  | |- bot_clean (fst (?m ?s)) => cut (stable bot_clean m)
  end.
  - intro Hm. now apply Hm.
  - repeat stable_step;
      first [ apply interact_clean; reflexivity
            | apply set_field_clean; reflexivity ].
Qed.

Lemma on_clean {A} (w : which) (m : M GtpBot A) :
  stable bot_clean m -> stable clean (on w m).
Proof.
  intros Hm e [Hb Hw]. unfold on.
  assert (Hself : bot_clean (bot w e)) by now destruct w.
  specialize (Hm (bot w e) Hself).
  destruct (m (bot w e)) as [self r]. destruct w; split; assumption.
Qed.

Context {G : Gomill}.
Variable fmt_1f : float -> string.
Variable args : args_t.

Lemma setup_clean : stable clean (setup fmt_1f args).
Proof.
  unfold setup.
  repeat stable_step; apply on_clean, interact_clean; reflexivity.
Qed.

Lemma on_bot_clean {A} (w : which) (m : M GtpBot A) :
  stable bot_clean m -> stable state_clean (on_bot w m).
Proof.
  intros Hm st Hs. unfold on_bot.
  pose proof (on_clean w m Hm (bots st) Hs) as He.
  now destruct (on w m (bots st)) as [e r].
Qed.

Lemma on_player_clean {A} (m : M GtpBot A) :
  stable bot_clean m -> stable state_clean (on_player m).
Proof. intros Hm st. unfold on_player. now apply on_bot_clean. Qed.

Lemma on_opponent_clean {A} (m : M GtpBot A) :
  stable bot_clean m -> stable state_clean (on_opponent m).
Proof. intros Hm st. unfold on_opponent. now apply on_bot_clean. Qed.

Lemma response2move_clean (response : string) :
  stable state_clean (response2move args response).
Proof.
  intros st Hs. destruct (response2move args response st) as [st' r] eqn:H.
  apply response2move_frame in H as [Hb _]. unfold state_clean in *.
  cbn [fst]. now rewrite Hb.
Qed.

Lemma apply_move_clean (move : move_t) : stable state_clean (apply_move move).
Proof.
  intros st Hs. destruct (apply_move move st) as [st' r] eqn:H.
  apply apply_move_frame in H as [Hb _]. unfold state_clean in *.
  cbn [fst]. now rewrite Hb.
Qed.

Lemma turn_clean : stable state_clean (turn args).
Proof.
  unfold turn.
  repeat first
    [ stable_step
    | apply on_player_clean
    | apply on_opponent_clean
    | apply write_clean; reflexivity
    | apply read_clean
    | apply interact_clean; reflexivity
    | apply set_field_clean; reflexivity
    | apply response2move_clean
    | apply apply_move_clean
    | match goal with
      | |- stable _ (if ?c then _ else _) => destruct c
      end
    | apply stable_modify; intros ? Hs; exact Hs ].
Qed.

Lemma game_loop_clean (fuel : nat) :
  forall (st st' : state) (r : result unit),
    state_clean st -> game_loop args fuel st = Some (st', r) ->
    state_clean st'.
Proof.
  induction fuel as [|fuel IH]; intros st st' r Hs H; [discriminate|].
  cbn [game_loop] in H. pose proof (turn_clean st Hs) as Ht.
  destruct (turn args st) as [st1 [[move [|]]|e]]; cbn [fst] in Ht.
  - now injection H as <- _.
  - now apply (IH st1 st' r).
  - now injection H as <- _.
Qed.

Lemma quit_both_clean : stable state_clean quit_both.
Proof.
  unfold quit_both.
  repeat first
    [ stable_step | apply on_player_clean | apply on_opponent_clean
    | apply write_clean; reflexivity ].
Qed.

Lemma play_game_clean (fuel : nat) (st st' : state) (r : result unit) :
  state_clean st -> play_game args fuel st = Some (st', r) -> state_clean st'.
Proof.
  intros Hs H. unfold play_game in H.
  destruct (game_loop args fuel st) as [[st1 r1]|] eqn:Hloop; [|discriminate].
  apply game_loop_clean in Hloop; [|exact Hs].
  pose proof (stable_finally state_clean quit_both (st1, r1) quit_both_clean
                Hloop) as Hf.
  cbn [option_map] in H.
  remember (finally quit_both (st1, r1)) as exit eqn:Hexit.
  injection H as ->. exact Hf.
Qed.

End NoEpsilon.

(** C1 fails on the code. Whatever the engines answer, [main] comes to an
    exit and has sent neither engine a [frisbee-epsilon] command. *)
Theorem main_never_sends_epsilon {G : Gomill} (fmt_1f : float -> string)
  (args : args_t) (black_proc white_proc : process) (tape : nat -> float) :
  no_epsilon_sent black_proc ->
  no_epsilon_sent white_proc ->
  exists exit : (process * process) * result unit,
    main fmt_1f args black_proc white_proc tape = Some exit
    /\ no_epsilon_sent (fst (fst exit))
    /\ no_epsilon_sent (snd (fst exit)).
Proof.
  intros Hb Hw.
  pose proof (main_exits fmt_1f args black_proc white_proc tape) as Hexit.
  destruct (main fmt_1f args black_proc white_proc tape) as [exit|] eqn:Hmain;
    [clear Hexit | congruence].
  exists exit. split; [reflexivity|].
  unfold main in Hmain.
  pose proof (init_clean black_proc "B" Hb) as Hbl.
  destruct (Bot.init black_proc "B") as [bl [[]|e]]; cbn [fst] in Hbl;
    [|injection Hmain as <-; split; assumption].
  pose proof (init_clean white_proc "W" Hw) as Hwh.
  destruct (Bot.init white_proc "W") as [wh [[]|e]]; cbn [fst] in Hwh;
    [|injection Hmain as <-; split; assumption].
  pose proof (setup_clean fmt_1f args (mkEngines bl wh) (conj Hbl Hwh)) as Hs.
  destruct (setup fmt_1f args (mkEngines bl wh)) as [e [[]|ex]];
    cbn [fst] in Hs; [|injection Hmain as <-; exact Hs].
  destruct (Board_new (boardsize args)) as [board|ex];
    [|injection Hmain as <-; exact Hs].
  destruct (play_game args (S (unread e))
              (mkState e board TheBlack None 0 tape 0)) as [[st' r]|] eqn:Hplay;
    [|discriminate].
  apply play_game_clean in Hplay; [|exact Hs].
  cbn [option_map] in Hmain. injection Hmain as <-. exact Hplay.
Qed.

Lemma main_never_sends_epsilon_witness :
  exists exit : (process * process) * result unit,
    @main Grid.gomill Grid.fmt_komi Grid.args0
          Grid.black_passer Grid.white_passer (fun _ => 0.5%float)
    = Some exit
    /\ no_epsilon_sent (fst (fst exit))
    /\ no_epsilon_sent (snd (fst exit)).
Proof.
  apply (@main_never_sends_epsilon Grid.gomill);
    unfold no_epsilon_sent; simpl; constructor.
Defined.

(** * Further properties *)

(** ** Stripping *)

Section Strip.

Lemma rstrip_all_space (w : string) :
  all_space w = true -> PyStr.rstrip w = EmptyString.
Proof.
  induction w as [|c w IH]; [reflexivity|]. cbn [all_space PyStr.rstrip].
  intro H. apply andb_true_iff in H as [Hc Hw]. now rewrite (IH Hw), Hc.
Qed.

Lemma rstrip_app_space (s w : string) :
  all_space w = true -> PyStr.rstrip (s ++ w) = PyStr.rstrip s.
Proof.
  intro Hw. induction s as [|c s IH].
  - cbn. now apply rstrip_all_space.
  - cbn [String.append PyStr.rstrip]. now rewrite IH.
Qed.

Lemma lstrip_all_space (w : string) :
  all_space w = true -> PyStr.lstrip w = EmptyString.
Proof.
  induction w as [|c w IH]; [reflexivity|]. cbn [all_space PyStr.lstrip].
  intro H. apply andb_true_iff in H as [Hc Hw]. now rewrite Hc, (IH Hw).
Qed.

Lemma lstrip_app_space (s w : string) :
  all_space w = true ->
  PyStr.lstrip (s ++ w)
  = match PyStr.lstrip s with
    | EmptyString => EmptyString
    | t => (t ++ w)%string
    end.
Proof.
  intro Hw. induction s as [|c s IH].
  - cbn. now apply lstrip_all_space.
  - cbn [String.append PyStr.lstrip]. destruct (PyStr.isspace c); [exact IH|].
    reflexivity.
Qed.

(** Whitespace at the end of a text does not show in the stripped text. *)
Lemma strip_app_space (s w : string) :
  all_space w = true -> PyStr.strip (s ++ w) = PyStr.strip s.
Proof.
  intro Hw. unfold PyStr.strip. rewrite (lstrip_app_space s w Hw).
  destruct (PyStr.lstrip s) as [|c t]; [reflexivity|].
  now apply rstrip_app_space.
Qed.

Lemma rstrip_last (s : string) (c : ascii) :
  PyStr.last (PyStr.rstrip s) = Some c -> PyStr.isspace c = false.
Proof.
  induction s as [|a s IH]; [discriminate|]. cbn [PyStr.rstrip].
  destruct (PyStr.rstrip s) as [|b t] eqn:Hr.
  - destruct (PyStr.isspace a) eqn:Ha; [discriminate|].
    cbn. intro H. now injection H as <-.
  - intro H. apply IH. exact H.
Qed.

Lemma rstrip_fixed (s : string) :
  (forall c, PyStr.last s = Some c -> PyStr.isspace c = false) ->
  PyStr.rstrip s = s.
Proof.
  induction s as [|a s IH]; [reflexivity|]. intro Hlast. cbn [PyStr.rstrip].
  destruct s as [|b t].
  - cbn. now rewrite (Hlast a eq_refl).
  - rewrite IH; [reflexivity|]. intros c Hc. apply Hlast. exact Hc.
Qed.

Lemma lstrip_head (s : string) (c : ascii) (t : string) :
  PyStr.lstrip s = String c t -> PyStr.isspace c = false.
Proof.
  induction s as [|a s IH]; [discriminate|]. cbn [PyStr.lstrip].
  destruct (PyStr.isspace a) eqn:Ha; [exact IH|].
  intro H. now injection H as <- _.
Qed.

Lemma rstrip_head (s : string) (c : ascii) (t : string) :
  PyStr.rstrip s = String c t -> exists t', s = String c t'.
Proof.
  destruct s as [|a s]; [discriminate|]. cbn [PyStr.rstrip].
  destruct (PyStr.rstrip s); [destruct (PyStr.isspace a); [discriminate|]|];
    intro H; injection H as <- _; eauto.
Qed.

Lemma strip_head (s : string) (c : ascii) (t : string) :
  PyStr.strip s = String c t -> PyStr.isspace c = false.
Proof.
  unfold PyStr.strip. intro H. apply rstrip_head in H as [t' H].
  now apply lstrip_head in H.
Qed.

Lemma strip_strip (s : string) : PyStr.strip (PyStr.strip s) = PyStr.strip s.
Proof.
  unfold PyStr.strip at 1.
  assert (Hl : PyStr.lstrip (PyStr.strip s) = PyStr.strip s).
  { destruct (PyStr.strip s) as [|c t] eqn:Hs; [reflexivity|].
    cbn [PyStr.lstrip]. now rewrite (strip_head s c t Hs). }
  rewrite Hl. apply rstrip_fixed. intros c Hc. unfold PyStr.strip in Hc.
  now apply rstrip_last in Hc.
Qed.

End Strip.

(** X1. The payload the framer returns is stripped: stripping it again
    changes nothing, it does not start with a whitespace character and it
    does not end with one. *)
Theorem gtp_cut_response_payload_stripped (response : string)
  (success : bool) (payload : string) :
  gtp_cut_response response = Ok (success, payload) ->
  PyStr.strip payload = payload
  /\ (forall c t, payload = String c t -> PyStr.isspace c = false)
  /\ (forall c, PyStr.last payload = Some c -> PyStr.isspace c = false).
Proof.
  intro H. destruct response as [|c rest]; [discriminate|].
  destruct (PyStr.mem c "=?") eqn:Hc.
  - rewrite (gtp_cut_response_framed c rest Hc) in H. injection H as _ <-.
    unfold payload_of. split; [apply strip_strip | split].
    + intros a t Ha. now apply strip_head in Ha.
    + intros a Ha. unfold PyStr.strip in Ha. now apply rstrip_last in Ha.
  - unfold gtp_cut_response in H. rewrite Hc in H. discriminate.
Qed.

Lemma gtp_cut_response_payload_stripped_witness :
  PyStr.strip "C3" = "C3"
  /\ (forall c t, "C3" = String c t -> PyStr.isspace c = false)
  /\ (forall c, PyStr.last "C3" = Some c -> PyStr.isspace c = false).
Proof.
  exact (gtp_cut_response_payload_stripped
           ("=12  C3 " ++ PyStr.nl ++ PyStr.nl) true "C3" eq_refl).
Defined.

Lemma drop_id_digits (d rest : string) :
  all_digits d = true -> drop_id (d ++ rest) = drop_id rest.
Proof.
  induction d as [|c d IH]; [reflexivity|]. cbn [all_digits].
  intro H. apply andb_true_iff in H as [Hc Hd].
  cbn [String.append drop_id]. rewrite Hc. now apply IH.
Qed.

(** X2. The framer ignores an echoed id: a run of digits right after the
    marker changes neither the flag nor the payload, whatever follows it,
    so an answer that starts with digits loses them. *)
Theorem gtp_cut_response_ignores_id (c : ascii) (d rest : string) :
  all_digits d = true ->
  gtp_cut_response (String c (d ++ rest)) = gtp_cut_response (String c rest).
Proof.
  intro Hd. destruct (PyStr.mem c "=?") eqn:Hc.
  - rewrite !(gtp_cut_response_framed c _ Hc). unfold payload_of.
    now rewrite (drop_id_digits d rest Hd).
  - unfold gtp_cut_response. now rewrite Hc.
Qed.

Lemma gtp_cut_response_ignores_id_witness :
  gtp_cut_response (String "=" ("19" ++ " pass"))
  = gtp_cut_response (String "=" " pass").
Proof. exact (gtp_cut_response_ignores_id "=" "19" " pass" eq_refl). Defined.

(** ** Reading responses *)

Section Reading.

Lemma splitlines_nil (text : string) : splitlines text = [] -> text = EmptyString.
Proof.
  destruct text as [|c rest]; [reflexivity|]. cbn [splitlines].
  destruct (Ascii.eqb c PyStr.newline); [discriminate|].
  destruct (splitlines rest); discriminate.
Qed.

(** The lines of a text up to one of its newlines, and the lines after
    it. *)
Lemma splitlines_app_newline (s t : string) :
  splitlines (s ++ String PyStr.newline t)
  = splitlines (s ++ PyStr.nl) ++ splitlines t.
Proof.
  induction s as [|c s IH]; [reflexivity|].
  cbn [String.append splitlines]. destruct (Ascii.eqb c PyStr.newline).
  - cbn [app]. now rewrite IH.
  - rewrite IH. destruct (splitlines (s ++ PyStr.nl)) as [|line lines] eqn:Hs.
    + apply splitlines_nil in Hs. destruct s; discriminate.
    + reflexivity.
Qed.


(** A response followed by its blank line is read whole, and no more. *)
Lemma receive_complete (content rest : string) :
  ~ In PyStr.nl (tl (splitlines (content ++ PyStr.nl))) ->
  receive (content ++ PyStr.nl ++ PyStr.nl ++ rest)
  = ((content ++ PyStr.nl ++ PyStr.nl)%string, rest).
Proof.
  intro Hno. unfold receive.
  change (content ++ PyStr.nl ++ PyStr.nl ++ rest)%string
    with (content ++ String PyStr.newline (String PyStr.newline rest))%string.
  rewrite splitlines_app_newline.
  pose proof (join_splitlines (content ++ PyStr.nl)) as Hjoin.
  destruct (splitlines (content ++ PyStr.nl)) as [|first before] eqn:Hs.
  - apply splitlines_nil in Hs. destruct content; discriminate.
  - cbn [tl] in Hno. cbn [splitlines app].
    change (Ascii.eqb PyStr.newline PyStr.newline) with true. cbv iota.
    rewrite (until_blank_first before (splitlines rest) Hno).
    rewrite join_splitlines. f_equal.
    change (first :: before ++ [PyStr.nl]) with ((first :: before) ++ [PyStr.nl]).
    rewrite join_app, Hjoin. cbn [PyStr.join fold_right].
    rewrite append_empty. now rewrite append_assoc.
Qed.

Lemma drop_id_app (body w : string) (a : ascii) (w' : string) :
  w = String a w' -> PyStr.isdigit a = false ->
  drop_id (body ++ w) = (drop_id body ++ w)%string.
Proof.
  intros -> Ha. induction body as [|c body IH].
  - cbn. now rewrite Ha.
  - cbn [String.append drop_id]. destruct (PyStr.isdigit c); [exact IH|].
    reflexivity.
Qed.

(** The blank line that ends a response is no part of its payload. *)
Lemma payload_of_terminated (body : string) :
  payload_of (body ++ PyStr.nl ++ PyStr.nl) = payload_of body.
Proof.
  unfold payload_of.
  rewrite (drop_id_app body (PyStr.nl ++ PyStr.nl) PyStr.newline PyStr.nl)
    by reflexivity.
  now apply strip_app_space.
Qed.

End Reading.


(** X4. An exchange with an engine that answers as the protocol asks: when
    the pending output is a marker, a body none of whose lines after the
    first is blank, and a blank line, [interact] writes the command, reads
    exactly that response, leaves what follows it unread, and returns the
    flag of the marker with the stripped body less its leading digits.
    That is so as long as the engine has not exited; when it has, the
    write raises [BrokenPipeError] and nothing is written or read. *)
Theorem interact_reads_one_response (gtp_cmd : string) (self : GtpBot)
  (c : ascii) (body rest : string) :
  stdout (p self) = String c (body ++ PyStr.nl ++ PyStr.nl ++ rest) ->
  PyStr.mem c "=?" = true ->
  ~ In PyStr.nl (tl (splitlines (String c body ++ PyStr.nl))) ->
  Bot.interact gtp_cmd self
  = if exited (p self) then (self, Raise BrokenPipeError)
    else
      (set_p self (mkProcess rest (stdin (p self)
                                   ++ [(gtp_cmd ++ PyStr.nl)%string])
                             (shorter (lifetime (p self)))),
       Ok (Ascii.eqb c "=", PyStr.strip (drop_id body))).
Proof.
  intros Hout Hc Hno. destruct (exited (p self)) eqn:Hx;
    [now apply interact_broken|].
  rewrite (interact_eq _ _ Hx). unfold after_io. rewrite Hout.
  change (String c (body ++ PyStr.nl ++ PyStr.nl ++ rest))
    with (String c body ++ PyStr.nl ++ PyStr.nl ++ rest)%string.
  rewrite (receive_complete (String c body) rest Hno). cbn [fst snd].
  change (String c body ++ PyStr.nl ++ PyStr.nl)%string
    with (String c (body ++ PyStr.nl ++ PyStr.nl)).
  rewrite (gtp_cut_response_framed c _ Hc), payload_of_terminated.
  reflexivity.
Qed.

Lemma interact_reads_one_response_witness :
  Bot.interact "list_commands"
    (mkGtpBot "B" false
       (mkProcess ("= name" ++ PyStr.nl ++ "komi" ++ PyStr.nl ++ PyStr.nl
                   ++ "= next") [] (Some 2))
       [] "")
  = (mkGtpBot "B" false
       (mkProcess "= next" [("list_commands" ++ PyStr.nl)%string] (Some 1))
       [] "",
     Ok (true, ("name" ++ PyStr.nl ++ "komi")%string)).
Proof.
  apply (interact_reads_one_response "list_commands"
           (mkGtpBot "B" false
              (mkProcess ("= name" ++ PyStr.nl ++ "komi" ++ PyStr.nl
                          ++ PyStr.nl ++ "= next") [] (Some 2))
              [] "")
           "=" (" name" ++ PyStr.nl ++ "komi") "= next");
    [reflexivity | reflexivity | simpl; intuition discriminate].
Defined.

(** X5. The end of the output is no error of its own. When the process
    has nothing left to print, [read] fails the framer's assertion. When
    the pending output starts with a marker and ends before any blank line
    after its first line, [read] takes all of it and returns it as a
    response. *)
Theorem read_at_end_of_output (self : GtpBot) :
  (stdout (p self) = EmptyString ->
   Bot.read self
   = (set_p self (mkProcess EmptyString (stdin (p self)) (lifetime (p self))),
      Raise AssertionError))
  /\ (forall (c : ascii) (body : string),
        stdout (p self) = String c body ->
        PyStr.mem c "=?" = true ->
        ~ In PyStr.nl (tl (splitlines (String c body))) ->
        Bot.read self
        = (set_p self (mkProcess EmptyString (stdin (p self)) (lifetime (p self))),
           Ok (Ascii.eqb c "=", payload_of body))).
Proof.
  split.
  - intro Hout. rewrite read_eq. unfold after_io. rewrite Hout.
    cbn. now rewrite app_nil_r.
  - intros c body Hout Hc Hno. rewrite read_eq. unfold after_io.
    rewrite Hout. unfold receive.
    pose proof (join_splitlines (String c body)) as Hjoin.
    destruct (splitlines (String c body)) as [|first lines]; [discriminate|].
    cbn [tl] in Hno. rewrite (until_blank_none lines Hno), Hjoin.
    cbn [fst snd PyStr.join fold_right]. rewrite app_nil_r.
    now rewrite (gtp_cut_response_framed c body Hc).
Qed.

Lemma read_at_end_of_output_witness :
  Bot.read (mkGtpBot "B" false (mkProcess ("= C3" ++ PyStr.nl) [] None) [] "")
  = (mkGtpBot "B" false (mkProcess "" [] None) [] "", Ok (true, "C3")).
Proof.
  apply (proj2 (read_at_end_of_output
           (mkGtpBot "B" false (mkProcess ("= C3" ++ PyStr.nl) [] None) [] ""))
           "="%char (" C3" ++ PyStr.nl)%string);
    [reflexivity | reflexivity | simpl; intuition discriminate].
Defined.

(** ** Start-up *)

Section StartUp.


End StartUp.








(** ** The resolver's outcomes *)

Section Outcomes.

Lemma neighbour_differs (move pt : point) :
  In pt (neighbours move) -> pt <> move.
Proof.
  unfold neighbours, north, east, south, west. destruct move as [row col].
  cbn [fst snd In]. intros [<-|[<-|[<-|[<-|[]]]]] H; injection H; lia.
Qed.

Lemma deflection_cases (eps u : float) (move : point) :
  deflection eps u move = move \/ In (deflection eps u move) (neighbours move).
Proof.
  unfold deflection, neighbours. cbn [find].
  repeat match goal with
         | |- context [if ?c then _ else _] => destruct c
         end; cbn [nth In]; auto 6.
Qed.

End Outcomes.

(** Deflection, in the words of the specification, stays where it is
    exactly when no sum meets the draw. *)
Lemma deflection_stays (eps u : float) (move : point) :
  deflection eps u move = move
  <-> forall k : nat, 1 <= k <= 4 -> (u <=? cumulative eps k)%float = false.
Proof.
  split.
  - intros Hstay k Hk.
    destruct (u <=? cumulative eps k)%float eqn:Hmet; [exfalso | reflexivity].
    assert (Hin : In (deflection eps u move) (firstn k (neighbours move))).
    { unfold deflection, neighbours. cbn [find cumulative].
      destruct k as [|[|[|[|[|k]]]]]; try lia; cbn [cumulative] in Hmet;
        repeat match goal with
               | |- context [if ?c then _ else _] => destruct c eqn:?
               end;
        cbn [nth firstn In]; auto; congruence. }
    apply (neighbour_differs move (deflection eps u move)); [|exact Hstay].
    revert Hin. generalize (deflection eps u move). intro pt.
    destruct k as [|[|[|[|[|k]]]]]; try lia; unfold neighbours;
      cbn [firstn In]; intuition.
  - intro Hnone. unfold deflection. cbn [find].
    rewrite (Hnone 1), (Hnone 2), (Hnone 3), (Hnone 4) by lia. reflexivity.
Qed.

(** X8. [randomize_move] draws once and leaves the proposal where it is
    exactly when none of the four cumulative sums meets the draw: as soon
    as one does, the result is another point than the proposal, one of its
    four neighbours. *)
Theorem deflection_stays_iff_no_sum_meets_draw {G : Gomill} (args : args_t)
  (move : point) (st : state) :
  exists landed : point,
    randomize_move args move st = (drawn st, Ok landed)
    /\ landed
       = randomize_walk directions 0 (next_random st) (epsilon args) move
    /\ (landed = move
        <-> forall k : nat,
              1 <= k <= 4 ->
              (next_random st <=? cumulative (epsilon args) k)%float = false)
    /\ (landed <> move -> In landed (neighbours move)).
Proof.
  exists (randomize_walk directions 0 (next_random st) (epsilon args) move).
  split; [reflexivity | split; [reflexivity|]].
  rewrite randomize_walk_deflection. split.
  - apply deflection_stays.
  - intro Hmoved.
    destruct (deflection_cases (epsilon args) (next_random st) move)
      as [Hstay|Hin]; [now destruct Hmoved | exact Hin].
Qed.

(** X9. The resolver changes nothing but the state of the random module:
    the bots, the board, the ko point, the turn and the move number are
    left as they are, and [random.random()] is called once or not at all.
    It is not called for a pass. *)
Theorem response2move_only_draws {G : Gomill} (args : args_t)
  (response : string) (st st' : state) (r : result (bool * move_t)) :
  response2move args response st = (st', r) ->
  bots st' = bots st /\ b st' = b st /\ ko_move st' = ko_move st
  /\ player st' = player st /\ movenum st' = movenum st
  /\ random_tape st' = random_tape st
  /\ (random_calls st' = random_calls st
      \/ random_calls st' = S (random_calls st))
  /\ (PyStr.lower response = "pass" ->
      st' = st /\ r = Ok (true, Pass)).
Proof.
  intro H.
  assert (Hst : st' = st \/ st' = drawn st).
  { revert H. unfold response2move.
    destruct (String.eqb (PyStr.lower response) "pass");
      [intro H; injection H as <- _; now left|].
    unfold bind at 1, get. unfold bind at 1, lift.
    destruct (move_from_vertex response (side (b st))) as [move|e];
      [|intro H; injection H as <- _; now left].
    destruct (negb (allow_invalid args) && negb (is_move_valid st move _));
      [intro H; injection H as <- _; now left|].
    unfold bind. rewrite randomize_move_deflection.
    match goal with
    | |- context [if ?c then _ else _] => destruct c
    end; intro H; injection H as <- _; now right. }
  assert (Hpass : PyStr.lower response = "pass" ->
                  st' = st /\ r = Ok (true, Pass)).
  { intro Hp. unfold response2move in H. rewrite Hp in H. cbn in H.
    injection H as <- <-. auto. }
  destruct Hst as [->| ->];
    cbn [drawn bots b ko_move player movenum random_tape random_calls];
    do 6 (split; [reflexivity|]); (split; [auto | exact Hpass]).
Qed.

Lemma response2move_only_draws_witness :
  fst (response2move Grid.args0 "PASS" (Grid.position None (fun _ => 0.5%float)))
  = Grid.position None (fun _ => 0.5%float)
  /\ snd (response2move Grid.args0 "PASS"
            (Grid.position None (fun _ => 0.5%float)))
     = Ok (true, Pass).
Proof.
  apply (proj2 (proj2 (proj2 (proj2 (proj2 (proj2 (proj2
           (@response2move_only_draws Grid.gomill Grid.args0 "PASS"
              (Grid.position None (fun _ => 0.5%float))
              (fst (response2move Grid.args0 "PASS"
                      (Grid.position None (fun _ => 0.5%float))))
              (snd (response2move Grid.args0 "PASS"
                      (Grid.position None (fun _ => 0.5%float))))
              eq_refl)))))))).
  reflexivity.
Defined.

(** X10. What the resolver returns. A pass comes with a match and only
    for the text [pass], in any case of letters; a skip never comes with a
    match. A committed point is legal on the board and is not the ko
    point; it is the proposed point or one of its four neighbours; and the
    match flag is set exactly when it is the proposed point. *)
Theorem response2move_outcome {G : Gomill} (args : args_t)
  (response : string) (st st' : state) (flag : bool) (move : move_t) :
  response2move args response st = (st', Ok (flag, move)) ->
  match move with
  | Pass => flag = true /\ PyStr.lower response = "pass"
  | Skip => flag = false
  | Vertex pt =>
      is_move_valid st pt (color (bot (player st) (bots st))) = true
      /\ is_ko pt (ko_move st) = false
      /\ exists proposal : point,
           move_from_vertex response (side (b st)) = Ok proposal
           /\ (pt = proposal \/ In pt (neighbours proposal))
           /\ (flag = true <-> pt = proposal)
  end.
Proof.
  destruct (String.eqb (PyStr.lower response) "pass") eqn:Hpass.
  - unfold response2move. rewrite Hpass. intro H. injection H as _ <- <-.
    split; [reflexivity | now apply String.eqb_eq].
  - destruct (move_from_vertex response (side (b st))) as [proposal|e]
      eqn:Hmove.
    + rewrite (response2move_vertex args response proposal st Hpass Hmove).
      set (color := color (bot (player st) (bots st))).
      set (landed := deflection (epsilon args) (next_random st) proposal).
      destruct (negb (allow_invalid args)
                && negb (is_move_valid st proposal color));
        [intro H; injection H as _ <- <-; reflexivity|].
      destruct (is_move_valid st landed color) eqn:Hvalid; cbn [negb];
        intro H; injection H as _ <- <-; [|reflexivity].
      split; [exact Hvalid | split].
      * unfold is_move_valid in Hvalid.
        destruct (is_ko landed (ko_move st)); [discriminate | reflexivity].
      * exists proposal. split; [reflexivity | split].
        -- destruct (deflection_cases (epsilon args) (next_random st) proposal);
             auto.
        -- split; intro Heq.
           ++ apply point_eqb_eq in Heq. now symmetry.
           ++ apply point_eqb_eq. now symmetry.
    + unfold response2move. rewrite Hpass.
      unfold bind at 1, get. unfold bind at 1, lift. rewrite Hmove.
      discriminate.
Qed.

Lemma response2move_outcome_witness :
  is_move_valid (Grid.position None (fun _ => 0.125%float)) (3, 2)%Z "B" = true
  /\ is_ko (3, 2)%Z None = false
  /\ exists proposal : point,
       Grid.parse "c3" 9 = Ok proposal
       /\ ((3, 2)%Z = proposal \/ In (3, 2)%Z (neighbours proposal))
       /\ (false = true <-> (3, 2)%Z = proposal).
Proof.
  exact (@response2move_outcome Grid.gomill Grid.args0 "c3"
           (Grid.position None (fun _ => 0.125%float))
           (drawn (Grid.position None (fun _ => 0.125%float)))
           false (Vertex (3, 2)%Z) eq_refl).
Defined.

(** ** The steps of a turn *)

Section TurnSteps.

Context {G : Gomill}.
Variable args : args_t.


Lemma write_keeps_color (gtp_cmd : string) : keeps_color (Bot.write gtp_cmd).
Proof. intro self. unfold Bot.write. now destruct (exited (p self)). Qed.

Lemma read_keeps_color : keeps_color Bot.read.
Proof. intro self. now rewrite read_eq. Qed.

Lemma interact_keeps_color (gtp_cmd : string) :
  keeps_color (Bot.interact gtp_cmd).
Proof.
  intro self. destruct (exited (p self)) eqn:H.
  - now rewrite (interact_broken _ _ H).
  - now rewrite (interact_eq _ _ H).
Qed.

Lemma set_flag_keeps_color (v : bool) :
  keeps_color (modify (set_has_passed v)).
Proof. intro self. reflexivity. Qed.

Lemma write_writes (gtp_cmd : string) :
  writes [(gtp_cmd ++ PyStr.nl)%string] (Bot.write gtp_cmd).
Proof.
  intros self self' a. unfold Bot.write.
  destruct (exited (p self)); [discriminate|]. intro H. now injection H as <-.
Qed.

Lemma read_writes : writes [] Bot.read.
Proof. intros self self' a. rewrite read_eq. intro H. now injection H as <-. Qed.

Lemma interact_writes (gtp_cmd : string) :
  writes [(gtp_cmd ++ PyStr.nl)%string] (Bot.interact gtp_cmd).
Proof.
  intros self self' a. destruct (exited (p self)) eqn:Hx.
  - now rewrite (interact_broken _ _ Hx).
  - rewrite (interact_eq _ _ Hx). intro H. now injection H as <-.
Qed.

Lemma set_flag_writes (v : bool) : writes [] (modify (set_has_passed v)).
Proof.
  intros self self' a H. injection H as <-. cbn. now rewrite app_nil_r.
Qed.

(** A method call on a bot leaves the game as it is. *)
Lemma on_bot_position {A} (w : which) (m : M GtpBot A) (st st' : state)
  (r : result A) :
  keeps_color m ->
  on_bot w m st = (st', r) ->
  b st' = b st /\ ko_move st' = ko_move st /\ player st' = player st
  /\ movenum st' = movenum st /\ random_tape st' = random_tape st
  /\ random_calls st' = random_calls st
  /\ forall x, color (bot x (bots st')) = color (bot x (bots st)).
Proof.
  intros Hm H. rewrite on_bot_eq in H. injection H as <- _.
  do 6 (split; [reflexivity|]). intro x.
  destruct x, w; cbn; auto.
Qed.

Lemma on_bot_sent {A} (w : which) (m : M GtpBot A) (written : list string)
  (st st' : state) (a : A) :
  writes written m ->
  on_bot w m st = (st', Ok a) ->
  sent st' w = sent st w ++ written
  /\ sent st' (other w) = sent st (other w).
Proof.
  intros Hm H. rewrite on_bot_eq in H.
  destruct (m (bot w (bots st))) as [self r] eqn:Hself. cbn [fst snd] in H.
  injection H as <- ->. apply Hm in Hself.
  unfold sent. destruct w; cbn; auto.
Qed.



(** A point the resolver commits is legal where the resolver was called. *)
Lemma response2move_commits_valid (response : string) (st st' : state)
  (flag : bool) (pt : point) :
  response2move args response st = (st', Ok (flag, Vertex pt)) ->
  is_move_valid st pt (color (bot (player st) (bots st))) = true.
Proof.
  unfold response2move.
  destruct (String.eqb (PyStr.lower response) "pass"); [discriminate|].
  unfold bind at 1, get. unfold bind at 1, lift.
  destruct (move_from_vertex response (side (b st))) as [move|x];
    [|discriminate].
  destruct (negb (allow_invalid args) && negb (is_move_valid st move _));
    [discriminate|].
  unfold bind. rewrite randomize_move_deflection.
  match goal with
  | |- context [if negb ?c then _ else _] => destruct c eqn:Hvalid
  end; cbn [negb]; [|discriminate].
  intro H. injection H as _ _ <-. exact Hvalid.
Qed.

(** The board takes a point that is legal. *)
Lemma apply_move_valid (pt : point) (st : state) :
  is_move_valid st pt (color (bot (player st) (bots st))) = true ->
  exists (board : Board) (ko : option point),
    play (b st) (fst pt) (snd pt)
         (PyStr.lower (color (bot (player st) (bots st))))
    = Played board ko
    /\ apply_move (Vertex pt) st = (set_board_ko board ko st, Ok tt).
Proof.
  unfold is_move_valid, apply_move, bind, get, modify.
  destruct (is_ko pt (ko_move st)); [discriminate|].
  destruct (play (b st) (fst pt) (snd pt) _) as [board ko| |];
    [eauto | discriminate | discriminate].
Qed.

Lemma is_move_valid_position (st st' : state) (pt : point) (c : string) :
  b st' = b st -> ko_move st' = ko_move st ->
  is_move_valid st' pt c = is_move_valid st pt c.
Proof. intros Hb Hk. unfold is_move_valid. now rewrite Hb, Hk. Qed.

(** The resolver leaves the state as it is or draws once. *)
Lemma response2move_state (response : string) (st st' : state)
  (r : result (bool * move_t)) :
  response2move args response st = (st', r) -> st' = st \/ st' = drawn st.
Proof.
  unfold response2move.
  destruct (String.eqb (PyStr.lower response) "pass");
    [intro H; injection H as <- _; now left|].
  unfold bind at 1, get. unfold bind at 1, lift.
  destruct (move_from_vertex response (side (b st))) as [move|e];
    [|intro H; injection H as <- _; now left].
  destruct (negb (allow_invalid args) && negb (is_move_valid st move _));
    [intro H; injection H as <- _; now left|].
  unfold bind. rewrite randomize_move_deflection.
  match goal with
  | |- context [if ?c then _ else _] => destruct c
  end; intro H; injection H as <- _; now right.
Qed.

(** The move the resolver commits is placed without an exception, after
    the flag of the mover is set. *)
Lemma commit_after_resolve (response : string) (s2 s3 s4 : state)
  (flag : bool) (move : move_t) (r : result unit) :
  response2move args response s2 = (s3, Ok (flag, move)) ->
  on_player (modify (set_has_passed (is_pass move))) s3 = (s4, r) ->
  exists s5 : state,
    apply_move move s4 = (s5, Ok tt)
    /\ bots s5 = bots s4 /\ player s5 = player s4
    /\ movenum s5 = movenum s4
    /\ random_tape s5 = random_tape s4
    /\ random_calls s5 = random_calls s4
    /\ match move with
       | Vertex pt =>
           play (b s2) (fst pt) (snd pt)
                (PyStr.lower (color (bot (player s2) (bots s2))))
           = Played (b s5) (ko_move s5)
       | _ => b s5 = b s2 /\ ko_move s5 = None
       end.
Proof.
  intros H3 H4.
  pose proof (response2move_state _ _ _ _ H3) as Hs3.
  pose proof (on_bot_position _ _ _ _ _ (set_flag_keeps_color _) H4)
    as (B4 & K4 & P4 & _ & _ & _ & C4).
  assert (B3 : b s3 = b s2) by (destruct Hs3 as [->| ->]; reflexivity).
  assert (K3 : ko_move s3 = ko_move s2)
    by (destruct Hs3 as [->| ->]; reflexivity).
  assert (C3 : color (bot (player s3) (bots s3))
               = color (bot (player s2) (bots s2)))
    by (destruct Hs3 as [->| ->]; reflexivity).
  destruct move as [| |pt].
  - eexists. split; [reflexivity|]. cbn. repeat split; congruence.
  - eexists. split; [reflexivity|]. cbn. repeat split; congruence.
  - apply response2move_commits_valid in H3.
    assert (Hvalid : is_move_valid s4 pt (color (bot (player s4) (bots s4)))
                     = true).
    { rewrite (is_move_valid_position s2 s4) by congruence.
      rewrite P4, C4, C3. exact H3. }
    destruct (apply_move_valid pt s4 Hvalid) as (board & ko & Hplay & Happly).
    eexists. split; [exact Happly|]. cbn. repeat split.
    rewrite <- Hplay. rewrite P4, C4, C3. congruence.
Qed.

End TurnSteps.

(** ** What a turn does *)





(** X12. What a turn that reaches its end has sent. The mover has been
    sent [frisbee-reg_genmove] with its color and then [frisbee-play] with
    its color and the committed move; the opponent has been sent that same
    [frisbee-play] line and nothing else. *)
Theorem turn_transcript {G : Gomill} (args : args_t) (st st' : state)
  (move : move_t) (ctl : control) :
  turn args st = (st', Ok (move, ctl)) ->
  let color := color (bot (player st) (bots st)) in
  let report :=
    ("frisbee-play " ++ color ++ " " ++ format_move move ++ PyStr.nl)%string in
  sent st' (player st)
  = sent st (player st)
    ++ [("frisbee-reg_genmove " ++ color ++ PyStr.nl)%string; report]
  /\ sent st' (opponent st) = sent st (opponent st) ++ [report].
Proof.
  intro H. apply turn_Ok in H. cbv zeta in H |- *.
  destruct H as (s1 & s2 & s3 & s4 & s5 & s6 & s7 & response & flag & r1
                 & r2 & H1 & H2 & H3 & H4 & H5 & H6 & H7 & Hend).
  pose proof (on_bot_position _ _ _ _ _ (write_keeps_color _) H1)
    as (_ & _ & P1 & _).
  pose proof (on_bot_position _ _ _ _ _ read_keeps_color H2)
    as (_ & _ & P2 & _).
  pose proof (response2move_frame _ _ _ _ _ H3) as [B3 P3].
  pose proof (on_bot_position _ _ _ _ _ (set_flag_keeps_color _) H4)
    as (_ & _ & P4 & _).
  pose proof (apply_move_frame _ _ _ _ H5) as [B5 P5].
  pose proof (on_bot_position _ _ _ _ _ (interact_keeps_color _) H6)
    as (_ & _ & P6 & _).
  apply (on_bot_sent _ _ _ _ _ _ (write_writes _)) in H1 as [W1 O1].
  apply (on_bot_sent _ _ _ _ _ _ read_writes) in H2 as [W2 O2].
  apply (on_bot_sent _ _ _ _ _ _ (set_flag_writes _)) in H4 as [W4 O4].
  apply (on_bot_sent _ _ _ _ _ _ (interact_writes _)) in H6 as [W6 O6].
  apply (on_bot_sent _ _ _ _ _ _ (interact_writes _)) in H7 as [W7 O7].
  assert (S3 : forall x, sent s3 x = sent s2 x)
    by (intro x; unfold sent; now rewrite B3).
  assert (S5 : forall x, sent s5 x = sent s4 x)
    by (intro x; unfold sent; now rewrite B5).
  assert (Q1 : player s1 = player st) by congruence.
  assert (Q3 : player s3 = player st) by congruence.
  assert (Q5 : player s5 = player st) by congruence.
  assert (Q6 : player s6 = player st) by congruence.
  assert (Hoo : other (other (player st)) = player st)
    by now destruct (player st).
  unfold opponent in *. rewrite Q1 in *. rewrite Q3 in *. rewrite Q5 in *.
  rewrite Q6 in *. rewrite Hoo in *.
  rewrite app_nil_r in W2, W4.
  assert (Hs7 : forall x, sent st' x = sent s7 x).
  { intro x. destruct (has_passed _ && has_passed _);
      injection Hend as -> _; reflexivity. }
  rewrite !Hs7, O7, W7, W6, O6, !S5, W4, O4, !S3, W2, O2, W1, O1.
  rewrite <- !app_assoc. cbn [app].
  rewrite <- !append_assoc. split; reflexivity.
Qed.

Lemma turn_transcript_witness :
  sent (fst (turn Grid.args0 Grid.both_pass)) TheBlack
  = sent Grid.both_pass TheBlack
    ++ [("frisbee-reg_genmove " ++ "B" ++ PyStr.nl)%string;
        ("frisbee-play " ++ "B" ++ " " ++ "pass" ++ PyStr.nl)%string]
  /\ sent (fst (turn Grid.args0 Grid.both_pass)) TheWhite
     = sent Grid.both_pass TheWhite
       ++ [("frisbee-play " ++ "B" ++ " " ++ "pass" ++ PyStr.nl)%string].
Proof.
  exact (@turn_transcript Grid.gomill Grid.args0 Grid.both_pass
           (fst (turn Grid.args0 Grid.both_pass)) Pass Continue eq_refl).
Defined.

(** X13. What a turn that reaches its end does to the game. After a pass
    or a skip the board is as it was and there is no ko point; after a
    point is committed the board and the ko point are what [play] returned
    for that point and the color of the mover on the board as it was. The
    move number grows by one unless the loop is left, and the turn has
    drawn one random number or none. *)
Theorem turn_updates_board {G : Gomill} (args : args_t) (st st' : state)
  (move : move_t) (ctl : control) :
  turn args st = (st', Ok (move, ctl)) ->
  match move with
  | Vertex pt =>
      play (b st) (fst pt) (snd pt)
           (PyStr.lower (color (bot (player st) (bots st))))
      = Played (b st') (ko_move st')
  | _ => b st' = b st /\ ko_move st' = None
  end
  /\ movenum st' = match ctl with
                   | Continue => (movenum st + 1)%Z
                   | Break => movenum st
                   end
  /\ random_tape st' = random_tape st
  /\ (random_calls st' = random_calls st
      \/ random_calls st' = S (random_calls st)).
Proof.
  intro H. apply turn_Ok in H. cbv zeta in H.
  destruct H as (s1 & s2 & s3 & s4 & s5 & s6 & s7 & response & flag & r1
                 & r2 & H1 & H2 & H3 & H4 & H5 & H6 & H7 & Hend).
  pose proof (on_bot_position _ _ _ _ _ (write_keeps_color _) H1)
    as (B1 & K1 & P1 & M1 & T1 & R1 & C1).
  pose proof (on_bot_position _ _ _ _ _ read_keeps_color H2)
    as (B2 & K2 & P2 & M2 & T2 & R2 & C2).
  pose proof (response2move_state _ _ _ _ _ H3) as Hs3.
  pose proof (on_bot_position _ _ _ _ _ (set_flag_keeps_color _) H4)
    as (B4 & K4 & P4 & M4 & T4 & R4 & C4).
  destruct (commit_after_resolve args _ _ _ _ _ _ _ H3 H4)
    as (s5' & H5' & _ & _ & M5 & T5 & R5 & Hboard).
  rewrite H5 in H5'. injection H5' as <-.
  pose proof (on_bot_position _ _ _ _ _ (interact_keeps_color _) H6)
    as (B6 & K6 & P6 & M6 & T6 & R6 & C6).
  pose proof (on_bot_position _ _ _ _ _ (interact_keeps_color _) H7)
    as (B7 & K7 & P7 & M7 & T7 & R7 & C7).
  assert (Hcolor : color (bot (player s2) (bots s2))
                   = color (bot (player st) (bots st)))
    by (rewrite P2, P1, C2, C1; reflexivity).
  assert (Hb : b st' = b s7 /\ ko_move st' = ko_move s7
               /\ random_tape st' = random_tape s7
               /\ random_calls st' = random_calls s7
               /\ movenum st' = match ctl with
                                | Continue => (movenum s7 + 1)%Z
                                | Break => movenum s7
                                end).
  { destruct (has_passed _ && has_passed _); injection Hend as -> ->;
      repeat split. }
  destruct Hb as (Eb & Ek & Et & Er & Em).
  rewrite Eb, Ek, Et, Er, Em, B7, B6, K7, K6, M7, M6, M5, M4, T7, T6, T5, T4,
    R7, R6, R5, R4.
  assert (M3 : movenum s3 = movenum st)
    by (destruct Hs3 as [->| ->]; cbn; congruence).
  assert (T3 : random_tape s3 = random_tape st)
    by (destruct Hs3 as [->| ->]; cbn; congruence).
  assert (R3 : random_calls s3 = random_calls st
               \/ random_calls s3 = S (random_calls st))
    by (destruct Hs3 as [->| ->]; cbn; [left | right]; congruence).
  rewrite M3, T3. split; [|split; [|split; [reflexivity | exact R3]]].
  - destruct move as [| |pt].
    + destruct Hboard as [Hb Hk]. split; congruence.
    + destruct Hboard as [Hb Hk]. split; congruence.
    + rewrite <- Hboard, Hcolor. congruence.
  - destruct ctl; reflexivity.
Qed.

Lemma turn_updates_board_witness :
  (b (fst (turn Grid.args0 Grid.both_pass)) = b Grid.both_pass
   /\ ko_move (fst (turn Grid.args0 Grid.both_pass)) = None)
  /\ movenum (fst (turn Grid.args0 Grid.both_pass))
     = (movenum Grid.both_pass + 1)%Z
  /\ random_tape (fst (turn Grid.args0 Grid.both_pass))
     = random_tape Grid.both_pass
  /\ (random_calls (fst (turn Grid.args0 Grid.both_pass))
      = random_calls Grid.both_pass
      \/ random_calls (fst (turn Grid.args0 Grid.both_pass))
         = S (random_calls Grid.both_pass)).
Proof.
  exact (@turn_updates_board Grid.gomill Grid.args0 Grid.both_pass
           (fst (turn Grid.args0 Grid.both_pass)) Pass Continue eq_refl).
Defined.

(** ** How the program exits *)

Section Exits.









Context {G : Gomill}.
Variable args : args_t.



End Exits.





(** ** When [quit] is sent *)

Ltac stable_walk :=
  match goal with
  | |- stable _ (bind _ _) => apply stable_bind; [|intros ?]
  | |- stable _ (ret _) => apply stable_ret
  | |- stable _ (assert _) => apply stable_assert
  | |- stable _ (let (_, _) := ?x in _) => destruct x
  end.

Section Quit.

Variable ok : string -> Prop.

Lemma write_only_sent (gtp_cmd : string) :
  ok (gtp_cmd ++ PyStr.nl) -> stable (bot_only_sent ok) (Bot.write gtp_cmd).
Proof.
  intros Hcmd self Hs. unfold Bot.write.
  destruct (exited (p self)); [exact Hs|]. unfold bot_only_sent, only_sent.
  cbn. apply Forall_app. split; [exact Hs | now constructor].
Qed.

Lemma read_only_sent : stable (bot_only_sent ok) Bot.read.
Proof.
  intros self Hs. rewrite read_eq. unfold bot_only_sent, only_sent.
  cbn. now rewrite app_nil_r.
Qed.

Lemma interact_only_sent (gtp_cmd : string) :
  ok (gtp_cmd ++ PyStr.nl) -> stable (bot_only_sent ok) (Bot.interact gtp_cmd).
Proof.
  intro Hcmd. unfold Bot.interact.
  apply stable_bind; [now apply write_only_sent | intros _; apply read_only_sent].
Qed.

Lemma set_field_only_sent (f : GtpBot -> GtpBot) :
  (forall self, p (f self) = p self) -> stable (bot_only_sent ok) (modify f).
Proof.
  intro Hf. apply stable_modify. intros self Hs. unfold bot_only_sent.
  now rewrite Hf.
Qed.

Lemma init_only_sent (proc : process) (c : string) :
  ok ("list_commands" ++ PyStr.nl) -> ok ("name" ++ PyStr.nl) ->
  only_sent ok proc -> bot_only_sent ok (fst (Bot.init proc c)).
Proof.
  intros Hlist Hname Hproc. unfold Bot.init.
  match goal with
  | |- bot_only_sent ok (fst (?m ?s)) => cut (stable (bot_only_sent ok) m)
  end.
  - intro Hm. now apply Hm.
  - repeat first
      [ apply interact_only_sent; assumption
      | apply set_field_only_sent; reflexivity
      | stable_walk ].
Qed.

Lemma on_only_sent {A} (w : which) (m : M GtpBot A) :
  stable (bot_only_sent ok) m -> stable (both_only_sent ok) (on w m).
Proof.
  intros Hm e [Hb Hw]. unfold on.
  assert (Hself : bot_only_sent ok (bot w e)) by now destruct w.
  specialize (Hm (bot w e) Hself).
  destruct (m (bot w e)) as [self r]. destruct w; split; assumption.
Qed.

Lemma setup_only_sent (fmt_1f : float -> string) (args : args_t) :
  (forall text, ok ("boardsize " ++ text ++ PyStr.nl)) ->
  (forall text, ok ("komi " ++ text ++ PyStr.nl)) ->
  stable (both_only_sent ok) (setup fmt_1f args).
Proof.
  intros Hsize Hkomi. unfold setup.
  repeat first
    [ apply on_only_sent, interact_only_sent;
      first [ apply Hsize | apply Hkomi ]
    | stable_walk ].
Qed.

Context {G : Gomill}.
Variable args : args_t.

Lemma on_bot_only_sent {A} (w : which) (m : M GtpBot A) :
  stable (bot_only_sent ok) m -> stable (state_only_sent ok) (on_bot w m).
Proof.
  intros Hm st Hs. unfold on_bot.
  pose proof (on_only_sent w m Hm (bots st) Hs) as He.
  now destruct (on w m (bots st)) as [e r].
Qed.

Lemma on_player_only_sent {A} (m : M GtpBot A) :
  stable (bot_only_sent ok) m -> stable (state_only_sent ok) (on_player m).
Proof. intros Hm st. unfold on_player. now apply on_bot_only_sent. Qed.

Lemma on_opponent_only_sent {A} (m : M GtpBot A) :
  stable (bot_only_sent ok) m -> stable (state_only_sent ok) (on_opponent m).
Proof. intros Hm st. unfold on_opponent. now apply on_bot_only_sent. Qed.

Lemma response2move_only_sent (response : string) :
  stable (state_only_sent ok) (response2move args response).
Proof.
  intros st Hs. destruct (response2move args response st) as [st' r] eqn:H.
  apply response2move_frame in H as [Hb _]. unfold state_only_sent in *.
  cbn [fst]. now rewrite Hb.
Qed.

Lemma apply_move_only_sent (move : move_t) :
  stable (state_only_sent ok) (apply_move move).
Proof.
  intros st Hs. destruct (apply_move move st) as [st' r] eqn:H.
  apply apply_move_frame in H as [Hb _]. unfold state_only_sent in *.
  cbn [fst]. now rewrite Hb.
Qed.

Hypothesis ok_genmove :
  forall text, ok ("frisbee-reg_genmove " ++ text ++ PyStr.nl).
Hypothesis ok_play : forall text, ok ("frisbee-play " ++ text ++ PyStr.nl).

Lemma turn_only_sent : stable (state_only_sent ok) (turn args).
Proof.
  unfold turn.
  repeat first
    [ stable_walk
    | apply stable_get
    | apply on_player_only_sent
    | apply on_opponent_only_sent
    | apply write_only_sent; rewrite append_assoc; apply ok_genmove
    | apply read_only_sent
    | apply interact_only_sent; rewrite append_assoc; apply ok_play
    | apply set_field_only_sent; reflexivity
    | apply response2move_only_sent
    | apply apply_move_only_sent
    | match goal with
      | |- stable _ (if ?c then _ else _) => destruct c
      end
    | apply stable_modify; intros ? Hs; exact Hs ].
Qed.

Lemma game_loop_only_sent (fuel : nat) :
  forall (st st' : state) (r : result unit),
    state_only_sent ok st -> game_loop args fuel st = Some (st', r) ->
    state_only_sent ok st'.
Proof.
  induction fuel as [|fuel IH]; intros st st' r Hs H; [discriminate|].
  cbn [game_loop] in H. pose proof (turn_only_sent st Hs) as Ht.
  destruct (turn args st) as [st1 [[move [|]]|e]]; cbn [fst] in Ht.
  - now injection H as <- _.
  - now apply (IH st1 st' r).
  - now injection H as <- _.
Qed.

End Quit.

(** X16. When [quit] is sent. Let the two processes have been sent no
    [quit] before [main] starts. When the start-up fails, the program
    exits with an exception and neither engine has been sent [quit]. When
    the start-up comes to an end, the last line each engine is sent before
    the program exits is [quit], unless an engine has exited by then: in
    that case the program exits with [BrokenPipeError] and an engine that
    has exited has never been sent [quit]. *)
Theorem quit_after_start_up {G : Gomill} (fmt_1f : float -> string)
  (args : args_t) (black_proc white_proc : process) (tape : nat -> float)
  (procs : process * process) (r : result unit) :
  only_sent not_quit black_proc ->
  only_sent not_quit white_proc ->
  main fmt_1f args black_proc white_proc tape = Some (procs, r) ->
  match start_up fmt_1f args black_proc white_proc with
  | Some _ =>
      (List.last (stdin (fst procs)) EmptyString = quit_line
       /\ List.last (stdin (snd procs)) EmptyString = quit_line)
      \/ (r = Raise BrokenPipeError
          /\ ((exited (fst procs) = true /\ only_sent not_quit (fst procs))
              \/ (exited (snd procs) = true
                  /\ only_sent not_quit (snd procs))))
  | None =>
      only_sent not_quit (fst procs) /\ only_sent not_quit (snd procs)
      /\ exists e : exn, r = Raise e
  end.
Proof.
  intros Hb Hw. unfold main, start_up.
  assert (Hlist : not_quit ("list_commands" ++ PyStr.nl)) by discriminate.
  assert (Hname : not_quit ("name" ++ PyStr.nl)) by discriminate.
  pose proof (init_only_sent not_quit black_proc "B" Hlist Hname Hb) as Hbl.
  destruct (Bot.init black_proc "B") as [bl [[]|x]]; cbn [fst] in Hbl.
  2:{ intro H. injection H as <- <-. cbn [fst snd]. eauto. }
  pose proof (init_only_sent not_quit white_proc "W" Hlist Hname Hw) as Hwh.
  destruct (Bot.init white_proc "W") as [wh [[]|x]]; cbn [fst] in Hwh.
  2:{ intro H. injection H as <- <-. cbn [fst snd]. eauto. }
  assert (Hsize : forall text, not_quit ("boardsize " ++ text ++ PyStr.nl))
    by (intros text; discriminate).
  assert (Hkomi : forall text, not_quit ("komi " ++ text ++ PyStr.nl))
    by (intros text; discriminate).
  assert (Hgen : forall text,
             not_quit ("frisbee-reg_genmove " ++ text ++ PyStr.nl))
    by (intros text; discriminate).
  assert (Hplay : forall text, not_quit ("frisbee-play " ++ text ++ PyStr.nl))
    by (intros text; discriminate).
  pose proof (setup_only_sent not_quit fmt_1f args Hsize Hkomi
                (mkEngines bl wh) (conj Hbl Hwh)) as Hs.
  destruct (setup fmt_1f args (mkEngines bl wh)) as [e [[]|x]];
    cbn [fst] in Hs.
  2:{ intro H. injection H as <- <-. destruct Hs. cbn. eauto. }
  destruct (Board_new (boardsize args)) as [board|x].
  2:{ intro H. injection H as <- <-. destruct Hs. cbn. eauto. }
  unfold play_game.
  destruct (game_loop args (S (unread e))
              (mkState e board TheBlack None 0 tape 0)) as [[st1 r1]|]
    eqn:Hloop; [|discriminate].
  apply (game_loop_only_sent not_quit args Hgen Hplay) in Hloop; [|exact Hs].
  destruct Hloop as [Hb1 Hw1].
  cbn [option_map finally]. pose proof (quit_both_cases st1) as Hquit.
  destruct (exited (p (bot (player st1) (bots st1)))) eqn:Xme.
  - rewrite Hquit. intro H. injection H as <- <-. right.
    split; [reflexivity|]. cbn [fst snd processes].
    destruct (player st1); cbn [bot] in Xme; [left | right]; now split.
  - destruct Hquit as (st2 & r2 & -> & Hme & Hyou).
    destruct (exited (p (bot (opponent st1) (bots st1)))) eqn:Xyou.
    + destruct Hyou as [Hyou ->]. intro H. injection H as <- <-. right.
      split; [reflexivity|]. cbn [fst snd processes].
      unfold opponent in *.
      destruct (player st1); cbn [bot other] in *; [right | left];
        rewrite Hyou; now split.
    + destruct Hyou as [Hyou ->]. intro H. injection H as <- _. left.
      cbn [fst snd processes]. unfold sent, opponent in *.
      destruct (player st1); cbn [bot other] in *; rewrite Hme, Hyou;
        split; apply last_last.
Qed.

Lemma quit_after_start_up_witness :
  (List.last
     (stdin (mkProcess ""
               (map (fun c => c ++ PyStr.nl)%string
                    ["list_commands"; "name"; "boardsize 9"; "komi 7.5"])
               (Some 0)))
     EmptyString = quit_line
   /\ List.last
        (stdin (mkProcess ""
                  (map (fun c => c ++ PyStr.nl)%string
                       ["list_commands"; "name"; "boardsize 9"; "komi 7.5"])
                  None))
        EmptyString = quit_line)
  \/ (Raise BrokenPipeError = @Raise unit BrokenPipeError
      /\ ((exited (mkProcess ""
                     (map (fun c => c ++ PyStr.nl)%string
                          ["list_commands"; "name"; "boardsize 9"; "komi 7.5"])
                     (Some 0)) = true
           /\ only_sent not_quit
                (mkProcess ""
                   (map (fun c => c ++ PyStr.nl)%string
                        ["list_commands"; "name"; "boardsize 9"; "komi 7.5"])
                   (Some 0)))
          \/ (exited (mkProcess ""
                        (map (fun c => c ++ PyStr.nl)%string
                             ["list_commands"; "name"; "boardsize 9";
                              "komi 7.5"])
                        None) = true
              /\ only_sent not_quit
                   (mkProcess ""
                      (map (fun c => c ++ PyStr.nl)%string
                           ["list_commands"; "name"; "boardsize 9";
                            "komi 7.5"])
                      None)))).
Proof.
  apply (@quit_after_start_up Grid.gomill Grid.fmt_komi Grid.args0
           (Grid.says_until 4 ["= name"; "= black"; "="; "="])
           (Grid.says ["= name"; "= white"; "="; "="])
           (fun _ => 0.5%float)
           (mkProcess ""
              (map (fun c => c ++ PyStr.nl)%string
                   ["list_commands"; "name"; "boardsize 9"; "komi 7.5"])
              (Some 0),
            mkProcess ""
              (map (fun c => c ++ PyStr.nl)%string
                   ["list_commands"; "name"; "boardsize 9"; "komi 7.5"])
              None)
           (Raise BrokenPipeError));
    [constructor | constructor | vm_compute; reflexivity].
Defined.

(** * The test bot *)

(** ** Substitution of a run *)

Section Substitution.

Variables (c1 c2 : ascii -> bool) (repl : string).

Lemma run_repeat_mark (s : string) (pos : nat) (m : marks) :
  run [MAX_REPEAT c2; MARK 1] pos s m
  = Some ((1, pos + run_length c2 s) :: m).
Proof.
  revert pos; induction s as [|a s IH]; intro pos.
  - rewrite run_repeat_nil; cbn. now rewrite Nat.add_0_r.
  - rewrite run_repeat_cons; cbn [run_length]. destruct (c2 a).
    + rewrite IH. now rewrite Nat.add_succ_r.
    + cbn. now rewrite Nat.add_0_r.
Qed.

Lemma match_end_run (pos : nat) (s : string) :
  match_end [IN c1; MAX_REPEAT c2] pos s
  = match s with
    | String a s' => if c1 a then Some (S pos + run_length c2 s') else None
    | EmptyString => None
    end.
Proof.
  unfold match_end. cbn [app].
  destruct s as [|a s']; [reflexivity|].
  change (run (IN c1 :: ?q) pos (String a s') [])
    with (if c1 a then run q (S pos) s' [] else None).
  destruct (c1 a); [|reflexivity]. now rewrite run_repeat_mark.
Qed.

(** One step of the substitution of a run. *)
Lemma sub_from_cons (pos : nat) (a : ascii) (s : string) :
  sub_from [IN c1; MAX_REPEAT c2] repl pos (String a s) 0
  = if c1 a
    then (repl ++ sub_from [IN c1; MAX_REPEAT c2] repl (S pos) s
                           (run_length c2 s))%string
    else String a (sub_from [IN c1; MAX_REPEAT c2] repl (S pos) s 0).
Proof.
  cbn [sub_from]. rewrite match_end_run. destruct (c1 a); [|reflexivity].
  replace (pos <? S pos + run_length c2 s)%nat with true
    by (symmetry; apply Nat.ltb_lt; lia).
  replace (S pos + run_length c2 s - pos - 1) with (run_length c2 s) by lia.
  reflexivity.
Qed.

Lemma sub_from_skip_all (s : string) (pos k : nat) :
  String.length s <= k ->
  sub_from [IN c1; MAX_REPEAT c2] repl pos s k = EmptyString.
Proof.
  revert pos k; induction s as [|a s IH]; intros pos k Hk; [reflexivity|].
  cbn [String.length] in Hk. destruct k as [|k]; [lia|].
  cbn [sub_from]. apply IH. lia.
Qed.

End Substitution.

Section Parsing.

Lemma isspace_newline : PyStr.isspace PyStr.newline = true.
Proof. reflexivity. Qed.

Lemma isspace_not_hash (c : ascii) :
  PyStr.isspace c = true -> Ascii.eqb c TestBot.hash = false.
Proof.
  intro Hc. destruct (Ascii.eqb_spec c TestBot.hash) as [->|]; [|reflexivity].
  discriminate.
Qed.

(** The substitution of [spaces] collapses the runs of whitespace. *)
Lemma sub_spaces_collapse (s : string) (pos : nat) :
  sub_from TestBot.spaces " " pos s 0 = collapse false s
  /\ sub_from TestBot.spaces " " pos s (run_length PyStr.isspace s)
     = collapse true s.
Proof.
  revert pos; induction s as [|a s IH]; intro pos; [split; reflexivity|].
  unfold TestBot.spaces in *. split.
  - rewrite sub_from_cons. cbn [collapse]. destruct (PyStr.isspace a).
    + now rewrite (proj2 (IH (S pos))).
    + now rewrite (proj1 (IH (S pos))).
  - cbn [run_length collapse]. destruct (PyStr.isspace a) eqn:Ha.
    + cbn [sub_from]. exact (proj2 (IH (S pos))).
    + rewrite sub_from_cons, Ha. now rewrite (proj1 (IH (S pos))).
Qed.

Lemma collapse_no_newline (s : string) (in_run : bool) :
  all_in not_newline (collapse in_run s) = true.
Proof.
  revert in_run; induction s as [|a s IH]; intro in_run; [reflexivity|].
  cbn [collapse]. destruct (PyStr.isspace a) eqn:Ha.
  - destruct in_run; [apply IH|]. cbn [all_in]. now rewrite IH.
  - cbn [all_in]. rewrite IH, andb_true_r. unfold not_newline.
    destruct (Ascii.eqb_spec a PyStr.newline) as [->|]; [|reflexivity].
    discriminate.
Qed.

Lemma run_length_all (cls : ascii -> bool) (s : string) :
  all_in cls s = true -> run_length cls s = String.length s.
Proof.
  induction s as [|a s IH]; [reflexivity|]. cbn [all_in run_length].
  intro H. apply andb_true_iff in H as [-> Hs]. cbn. now rewrite IH.
Qed.

(** On a text of one line the substitution of [comment] cuts at the first
    [#]. *)
Lemma sub_comment_before_hash (s : string) (pos : nat) :
  all_in not_newline s = true ->
  sub_from TestBot.comment EmptyString pos s 0 = before_hash s.
Proof.
  revert pos; induction s as [|a s IH]; intros pos Hs; [reflexivity|].
  cbn [all_in] in Hs. apply andb_true_iff in Hs as [_ Hs].
  unfold TestBot.comment in *. rewrite sub_from_cons. cbn [before_hash].
  destruct (Ascii.eqb a TestBot.hash).
  - cbn [String.append]. apply sub_from_skip_all.
    fold not_newline. rewrite (run_length_all not_newline s Hs). lia.
  - now rewrite IH.
Qed.

Lemma split_ws_all_space (w : string) :
  all_space w = true -> split_ws w = [].
Proof.
  induction w as [|c w IH]; [reflexivity|]. cbn [all_space split_ws].
  intro H. apply andb_true_iff in H as [-> Hw]. now apply IH.
Qed.

(** The words of a text that starts with a character of a word. *)
Lemma split_ws_cons (a : ascii) (x : string) :
  PyStr.isspace a = false ->
  split_ws (String a x)
  = if starts_space x then String a EmptyString :: split_ws x
    else match split_ws x with
         | word :: words => String a word :: words
         | [] => [String a EmptyString]
         end.
Proof.
  intro Ha. cbn [split_ws]. rewrite Ha. destruct x as [|d x]; [reflexivity|].
  cbn [starts_space]. destruct (PyStr.isspace d); reflexivity.
Qed.

Lemma split_ws_app_space (x w : string) :
  all_space w = true -> split_ws (x ++ w) = split_ws x.
Proof.
  intro Hw. induction x as [|a x IH].
  - cbn. now apply split_ws_all_space.
  - cbn [String.append]. destruct (PyStr.isspace a) eqn:Ha.
    + cbn [split_ws]. now rewrite Ha.
    + rewrite !(split_ws_cons a _ Ha), IH.
      destruct x as [|d x]; [|reflexivity].
      cbn [String.append starts_space split_ws].
      destruct w as [|e w]; [reflexivity|].
      cbn [all_space] in Hw. apply andb_true_iff in Hw as [He Hw'].
      cbn [starts_space]. now rewrite He.
Qed.

Lemma rstrip_decompose (s : string) :
  exists w : string, all_space w = true /\ s = (PyStr.rstrip s ++ w)%string.
Proof.
  induction s as [|a s (w & Hw & Hs)]; [now exists EmptyString|].
  cbn [PyStr.rstrip]. destruct (PyStr.rstrip s) as [|b t] eqn:Hr.
  - destruct (PyStr.isspace a) eqn:Ha.
    + exists (String a w). cbn. rewrite Ha, Hw. split; [reflexivity|].
      now rewrite Hs at 1.
    + exists w. split; [exact Hw|]. cbn. now rewrite Hs at 1.
  - exists w. split; [exact Hw|]. cbn. now rewrite Hs at 1.
Qed.

Lemma split_ws_lstrip (s : string) : split_ws (PyStr.lstrip s) = split_ws s.
Proof.
  induction s as [|a s IH]; [reflexivity|]. cbn [PyStr.lstrip].
  destruct (PyStr.isspace a) eqn:Ha; [|reflexivity].
  cbn [split_ws]. now rewrite Ha.
Qed.

(** Stripping a text does not change its words. *)
Lemma split_ws_strip (s : string) : split_ws (PyStr.strip s) = split_ws s.
Proof.
  unfold PyStr.strip.
  destruct (rstrip_decompose (PyStr.lstrip s)) as (w & Hw & Hs).
  rewrite <- (split_ws_lstrip s). rewrite Hs at 2.
  now rewrite split_ws_app_space.
Qed.

(** Collapsing the runs of whitespace changes neither the words before
    the first [#] nor, outside a run, whether that text starts with
    whitespace. *)
Lemma collapse_words (s : string) :
  split_ws (before_hash (collapse true s)) = split_ws (before_hash s)
  /\ split_ws (before_hash (collapse false s)) = split_ws (before_hash s)
  /\ starts_space (before_hash (collapse false s))
     = starts_space (before_hash s).
Proof.
  induction s as [|a s (IHt & IHf & IHs)]; [repeat split|].
  cbn [collapse before_hash]. destruct (PyStr.isspace a) eqn:Ha.
  - rewrite (isspace_not_hash a Ha). cbn [before_hash].
    change (Ascii.eqb " " TestBot.hash) with false. cbv iota.
    cbn [split_ws starts_space]. rewrite Ha.
    change (PyStr.isspace " ") with true. cbv iota. auto.
  - cbn [before_hash]. destruct (Ascii.eqb a TestBot.hash); [repeat split|].
    rewrite !(split_ws_cons a _ Ha), IHf, IHs. cbn [starts_space].
    rewrite Ha. auto.
Qed.

Lemma command_words_before_hash (raw_line : string) :
  TestBot.command_words raw_line = split_ws (before_hash raw_line).
Proof.
  unfold TestBot.command_words, sub.
  rewrite (proj1 (sub_spaces_collapse raw_line 0)).
  rewrite (sub_comment_before_hash _ 0 (collapse_no_newline raw_line false)).
  rewrite split_ws_strip. exact (proj1 (proj2 (collapse_words raw_line))).
Qed.

End Parsing.

(** ** The replies of the test bot *)

Section Replies.

Lemma split_ws_nil (x : string) : split_ws x = [] -> all_space x = true.
Proof.
  induction x as [|a x IH]; [reflexivity|].
  destruct (PyStr.isspace a) eqn:Ha.
  - cbn [split_ws all_space]. rewrite Ha. exact IH.
  - rewrite (split_ws_cons a x Ha).
    destruct (starts_space x); [discriminate|].
    destruct (split_ws x); discriminate.
Qed.

Lemma answer_words_silent (words : list string) (n n' : nat) :
  TestBot.answer_words words n = (n', TestBot.Silent) -> words = [].
Proof.
  destruct words as [|first rest]; [reflexivity|]. cbn [TestBot.answer_words].
  destruct (re_match TestBot.number first).
  - destruct rest as [|cmd args]; [discriminate|].
    destruct (TestBot.handle_cmd _ _ _) as [m [err ret]]. discriminate.
  - destruct (TestBot.handle_cmd _ _ _) as [m [err ret]]. discriminate.
Qed.

Lemma run_repeat_alone (cls : ascii -> bool) (s : string) (pos : nat)
  (m : marks) :
  run [MAX_REPEAT cls] pos s m = Some m.
Proof.
  revert pos; induction s as [|a s IH]; intro pos; [reflexivity|].
  rewrite run_repeat_cons. destruct (cls a); [|reflexivity]. now rewrite IH.
Qed.

(** A word is taken for an id when it starts with a digit. *)
Lemma re_match_number (word : string) :
  re_match TestBot.number word
  = match word with
    | String a _ => PyStr.isdigit a
    | EmptyString => false
    end.
Proof.
  unfold re_match, TestBot.number. destruct word as [|a s]; [reflexivity|].
  change (run (IN ?c :: ?q) 0 (String a s) [])
    with (if c a then run q 1 s [] else None).
  destruct (PyStr.isdigit a); [|reflexivity]. now rewrite run_repeat_alone.
Qed.

Lemma handle_cmd_plain (cmd : string) (args : list string) (n : nat) :
  plain_answer (snd (snd (TestBot.handle_cmd cmd args n))).
Proof.
  unfold TestBot.handle_cmd.
  repeat match goal with
         | |- context [if ?c then _ else _] => destruct c
         end; cbn [snd]; try (split; [simpl; intuition discriminate | reflexivity]).
  destruct (n mod List.length TestBot.moves) as [|[|[|[|[|[|[|k]]]]]]];
    unfold TestBot.moves; cbn [nth];
    (split; [simpl; intuition discriminate | reflexivity]).
Qed.

Lemma all_digits_no_newline (d : string) :
  all_digits d = true -> all_in not_newline d = true.
Proof.
  induction d as [|a d IH]; [reflexivity|]. cbn [all_digits all_in].
  intro H. apply andb_true_iff in H as [Ha Hd]. rewrite (IH Hd), andb_true_r.
  unfold not_newline. destruct (Ascii.eqb_spec a PyStr.newline) as [->|];
    [discriminate | reflexivity].
Qed.

(** The lines of a text after a start without a newline. *)
Lemma splitlines_prefix (d t : string) :
  all_in not_newline d = true ->
  tl (splitlines (d ++ t))
  = match t with
    | EmptyString => []
    | _ => tl (splitlines t)
    end
  /\ (t <> EmptyString -> splitlines (d ++ t) <> []).
Proof.
  intro Hd. induction d as [|a d IH].
  - cbn. destruct t as [|b t]; [split; [reflexivity | congruence]|].
    split; [reflexivity|]. intros _ H. apply splitlines_nil in H. discriminate.
  - cbn [all_in] in Hd. apply andb_true_iff in Hd as [Ha Hd].
    destruct (IH Hd) as [IHt IHn]. cbn [String.append splitlines].
    unfold not_newline in Ha. apply negb_true_iff in Ha. rewrite Ha.
    destruct (splitlines (d ++ t)) as [|line lines] eqn:Hs.
    + apply splitlines_nil in Hs. destruct d; [|discriminate].
      cbn in Hs. subst t. split; [reflexivity | congruence].
    + cbn [tl] in *. split; [exact IHt | discriminate].
Qed.

(** The referee reads an answer of the test bot back. *)
Lemma read_back (err : bool) (cmdid ret rest : string) (self : GtpBot) :
  all_digits cmdid = true ->
  plain_answer ret ->
  stdout (p self)
  = ((if err then "?" else "=") ++ cmdid ++ " " ++ ret
     ++ PyStr.nl ++ PyStr.nl ++ rest)%string ->
  Bot.read self
  = (set_p self (mkProcess rest (stdin (p self)) (lifetime (p self))), Ok (negb err, ret)).
Proof.
  intros Hid [Hlines Hstrip] Hout. rewrite read_eq. unfold after_io.
  rewrite Hout, app_nil_r.
  set (m := (if err then "?" else "=")%char).
  assert (Hm : ((if err then "?" else "=") ++ cmdid ++ " " ++ ret
                ++ PyStr.nl ++ PyStr.nl ++ rest)%string
               = (String m (cmdid ++ " " ++ ret) ++ PyStr.nl ++ PyStr.nl
                  ++ rest)%string).
  { destruct err; cbn; rewrite !append_assoc; reflexivity. }
  rewrite Hm. rewrite receive_complete.
  - cbn [fst snd].
    change (String m (cmdid ++ " " ++ ret) ++ PyStr.nl ++ PyStr.nl)%string
      with (String m ((cmdid ++ " " ++ ret) ++ PyStr.nl ++ PyStr.nl)).
    rewrite gtp_cut_response_framed by (now destruct err).
    rewrite payload_of_terminated. unfold payload_of.
    rewrite (drop_id_digits cmdid _ Hid).
    change (drop_id (" " ++ ret)) with (" " ++ ret)%string. rewrite Hstrip.
    now destruct err.
  - assert (Hno : all_in not_newline (String m cmdid) = true).
    { cbn [all_in]. rewrite (all_digits_no_newline cmdid Hid).
      now destruct err. }
    replace (String m (cmdid ++ " " ++ ret) ++ PyStr.nl)%string
      with (String m cmdid ++ (" " ++ ret ++ PyStr.nl))%string
      by (cbn; now rewrite !append_assoc).
    rewrite (proj1 (splitlines_prefix _ (" " ++ ret ++ PyStr.nl) Hno)).
    exact Hlines.
Qed.

End Replies.

(** X17. The command line of the test bot is the list of the words before
    the first [#] of the line: runs of whitespace, whitespace at either
    end and a comment do not count. A line is passed over in silence,
    with [movenum] left as it is, exactly when nothing but whitespace
    comes before its first [#]. *)
Theorem command_line_is_words_before_comment (raw_line : string) (n : nat) :
  TestBot.command_words raw_line = split_ws (before_hash raw_line)
  /\ (all_space (before_hash raw_line) = true
      <-> TestBot.answer_line raw_line n = (n, TestBot.Silent)).
Proof.
  split; [apply command_words_before_hash|].
  unfold TestBot.answer_line. rewrite command_words_before_hash. split.
  - intro Hblank. now rewrite (split_ws_all_space _ Hblank).
  - intro Hsilent. apply answer_words_silent in Hsilent.
    now apply split_ws_nil.
Qed.

(** X18. The referee reads back what the test bot answers. For a command
    line with no id, or with an id of digits only, the test bot prints a
    response from which the referee's [read] returns the success of the
    command (the negation of the error flag of [handle_cmd]) and exactly
    the answer of [handle_cmd], leaving unread what follows the
    response. *)
Theorem test_bot_reply_is_read_back (cmdid cmd : string) (args : list string)
  (n : nat) :
  all_digits cmdid = true ->
  re_match TestBot.number cmd = false ->
  let cmdline :=
    match cmdid with
    | EmptyString => cmd :: args
    | _ => cmdid :: cmd :: args
    end in
  let handled := TestBot.handle_cmd (PyStr.lower cmd) args n in
  exists output : string,
    TestBot.answer_words cmdline n = (fst handled, TestBot.Printed output)
    /\ forall (self : GtpBot) (rest : string),
         stdout (p self) = (output ++ rest)%string ->
         Bot.read self
         = (set_p self (mkProcess rest (stdin (p self)) (lifetime (p self))),
            Ok (negb (fst (snd handled)), snd (snd handled))).
Proof.
  intros Hid Hcmd cmdline handled.
  pose proof (handle_cmd_plain (PyStr.lower cmd) args n) as Hplain.
  fold handled in Hplain.
  assert (Hwords :
    TestBot.answer_words cmdline n
    = (fst handled,
       TestBot.Printed ((if fst (snd handled) then "?" else "=") ++ cmdid
                        ++ " " ++ snd (snd handled) ++ PyStr.nl ++ PyStr.nl))).
  { subst cmdline. destruct cmdid as [|d ds].
    - cbn [TestBot.answer_words]. rewrite Hcmd. fold handled.
      now destruct handled as [m [err ret]].
    - cbn [TestBot.answer_words]. rewrite re_match_number.
      cbn [all_digits] in Hid. apply andb_true_iff in Hid as [-> _].
      fold handled. now destruct handled as [m [err ret]]. }
  eexists. split; [exact Hwords|]. intros self rest Hout.
  apply (read_back (fst (snd handled)) cmdid (snd (snd handled)) rest self Hid
           Hplain).
  rewrite Hout. now rewrite !append_assoc.
Qed.

Lemma test_bot_reply_is_read_back_witness :
  exists output : string,
    TestBot.answer_words ["7"; "Frisbee-Reg_Genmove"; "b"] 5
    = (6, TestBot.Printed output)
    /\ forall (self : GtpBot) (rest : string),
         stdout (p self) = (output ++ rest)%string ->
         Bot.read self
         = (set_p self (mkProcess rest (stdin (p self)) (lifetime (p self))), Ok (true, "pass")).
Proof.
  exact (test_bot_reply_is_read_back "7" "Frisbee-Reg_Genmove" ["b"] 5
           eq_refl eq_refl).
Defined.


(** X20. What the test bot lists and what it handles. Of the commands it
    lists in answer to [list_commands], every one succeeds, whatever its
    arguments and [movenum], but [clear_board], which fails as an unknown
    command. [quit], which the referee sends at the end, fails as an
    unknown command too and leaves [movenum] as it is. *)
Theorem test_bot_listed_commands (cmd : string) (args : list string)
  (n : nat) :
  (In cmd (split_nl TestBot.listed) ->
   fst (snd (TestBot.handle_cmd cmd args n)) = String.eqb cmd "clear_board")
  /\ TestBot.handle_cmd "quit" args n = (n, (true, "unknown cmd"))
  /\ TestBot.handle_cmd "clear_board" args n = (n, (true, "unknown cmd")).
Proof.
  split; [|split; reflexivity].
  intro Hin.
  repeat (destruct Hin as [<-|Hin]; [reflexivity|]). destruct Hin.
Qed.

Lemma split_ws_word (d : string) :
  all_in not_space d = true -> d <> EmptyString ->
  split_ws d = [d] /\ starts_space d = false.
Proof.
  induction d as [|a d IH]; [congruence|]. cbn [all_in].
  intros H _. apply andb_true_iff in H as [Ha Hd].
  unfold not_space in Ha. apply negb_true_iff in Ha.
  rewrite (split_ws_cons a d Ha). cbn [starts_space]. split; [|exact Ha].
  destruct d as [|b d]; [reflexivity|].
  destruct (IH Hd) as [-> ->]; [discriminate | reflexivity].
Qed.

Lemma all_digits_word (d : string) :
  all_digits d = true ->
  all_in not_space d = true /\ before_hash d = d.
Proof.
  induction d as [|a d IH]; [split; reflexivity|]. cbn [all_digits].
  intro H. apply andb_true_iff in H as [Ha Hd]. destruct (IH Hd) as [Hs Hh].
  cbn [all_in before_hash]. rewrite Hs, Hh.
  assert (Hsp : PyStr.isspace a = false).
  { destruct (PyStr.isspace a) eqn:E; [|reflexivity].
    revert Ha E. unfold PyStr.isdigit, PyStr.isspace, PyStr.between.
    intros Ha E. apply andb_true_iff in Ha as [H1 H2].
    apply Nat.leb_le in H1, H2.
    repeat (apply orb_true_iff in E as [E|E]);
      try (apply andb_true_iff in E as [E1 E2]; apply Nat.leb_le in E1, E2);
      try apply Nat.eqb_eq in E; lia. }
  assert (Hhash : Ascii.eqb a TestBot.hash = false).
  { destruct (Ascii.eqb_spec a TestBot.hash) as [->|]; [discriminate|].
    reflexivity. }
  unfold not_space. rewrite Hsp, Hhash. split; reflexivity.
Qed.

(** X21. A line that holds an id and nothing else ends the test bot. For
    a line made of digits and its newline the body of the loop raises
    [IndexError], [movenum] is left as it is, and the lines after it are
    never answered. *)
Theorem test_bot_id_only_line_crashes (d : string) (n : nat)
  (lines : list string) :
  all_digits d = true -> d <> EmptyString ->
  TestBot.answer_line (d ++ PyStr.nl) n = (n, TestBot.Crashed IndexError)
  /\ TestBot.serve ((d ++ PyStr.nl)%string :: lines) n
     = (EmptyString, n, Some IndexError).
Proof.
  intros Hd Hne. destruct (all_digits_word d Hd) as [Hword Hhash].
  assert (Hline : TestBot.answer_line (d ++ PyStr.nl) n
                  = (n, TestBot.Crashed IndexError)).
  { unfold TestBot.answer_line. rewrite command_words_before_hash.
    assert (Hb : before_hash (d ++ PyStr.nl) = (d ++ PyStr.nl)%string).
    { clear Hne Hword. induction d as [|a d IH]; [reflexivity|].
      cbn [all_digits] in Hd. apply andb_true_iff in Hd as [Ha Hd].
      cbn [before_hash] in Hhash.
      destruct (Ascii.eqb a TestBot.hash) eqn:E; [discriminate|].
      injection Hhash as Hhash. cbn [String.append before_hash].
      rewrite E. now rewrite (IH Hd Hhash). }
    rewrite Hb, (split_ws_app_space d PyStr.nl eq_refl).
    rewrite (proj1 (split_ws_word d Hword Hne)).
    cbn [TestBot.answer_words]. rewrite re_match_number.
    destruct d as [|a d]; [congruence|].
    cbn [all_digits] in Hd. apply andb_true_iff in Hd as [-> _].
    reflexivity. }
  split; [exact Hline|]. cbn [TestBot.serve]. now rewrite Hline.
Qed.

Lemma test_bot_id_only_line_crashes_witness :
  TestBot.answer_line ("12" ++ PyStr.nl) 3 = (3, TestBot.Crashed IndexError)
  /\ TestBot.serve [("12" ++ PyStr.nl)%string; ("name" ++ PyStr.nl)%string] 3
     = (EmptyString, 3, Some IndexError).
Proof.
  apply (test_bot_id_only_line_crashes "12" 3 [("name" ++ PyStr.nl)%string]);
    [reflexivity | discriminate].
Defined.


(** ** A session of the test bot, read by the referee *)

Lemma answer_words_printed (cmdline : list string) (n n' : nat)
  (output : string) :
  numeric_id cmdline = true ->
  TestBot.answer_words cmdline n = (n', TestBot.Printed output) ->
  exists (err : bool) (cmdid ret : string),
    all_digits cmdid = true /\ plain_answer ret
    /\ output = ((if err then "?" else "=") ++ cmdid ++ " " ++ ret
                 ++ PyStr.nl ++ PyStr.nl)%string.
Proof.
  destruct cmdline as [|first rest]; [discriminate|].
  cbn [numeric_id TestBot.answer_words].
  destruct (re_match TestBot.number first) eqn:Hid; intros Hnum Hprint.
  - destruct rest as [|cmd args]; [discriminate|].
    pose proof (handle_cmd_plain (PyStr.lower cmd) args n) as Hplain.
    destruct (TestBot.handle_cmd (PyStr.lower cmd) args n) as [m [err ret]].
    injection Hprint as _ <-. exists err, first, ret.
    split; [exact Hnum | split; [exact Hplain | reflexivity]].
  - pose proof (handle_cmd_plain (PyStr.lower first) rest n) as Hplain.
    destruct (TestBot.handle_cmd (PyStr.lower first) rest n) as [m [err ret]].
    injection Hprint as _ <-. exists err, EmptyString, ret.
    split; [reflexivity | split; [exact Hplain | reflexivity]].
Qed.

Lemma set_p_idle (self : GtpBot) :
  set_p self (mkProcess (stdout (p self)) (stdin (p self)) (lifetime (p self))) = self.
Proof. destruct self as [? ? [? ?] ? ?]; reflexivity. Qed.

(** X22. Whatever the test bot prints, the referee can read. For an input
    whose lines have numeric ids or none, the output of the test bot up to
    the end of the input or to the line that stops it is a sequence of
    framed responses, one for each line it answered: that many calls of
    [read] succeed one after the other and consume exactly the output,
    leaving unread only what follows it. *)
Theorem test_bot_session_is_read_back (lines : list string) (n : nat)
  (self : GtpBot) (rest : string) :
  numeric_ids lines = true ->
  stdout (p self) = (fst (fst (TestBot.serve lines n)) ++ rest)%string ->
  exists answers : list (bool * string),
    List.length answers = printed_replies lines n
    /\ read_many (printed_replies lines n) self
       = (set_p self (mkProcess rest (stdin (p self)) (lifetime (p self))), Ok answers).
Proof.
  revert n self. induction lines as [|raw_line lines IH]; intros n self Hids Hout.
  - exists []. split; [reflexivity|]. cbn in Hout |- *. unfold ret.
    now rewrite <- Hout, set_p_idle.
  - cbn [numeric_ids forallb] in Hids. apply andb_true_iff in Hids as [Hid Hids].
    cbn [TestBot.serve printed_replies] in Hout |- *.
    unfold TestBot.answer_line in Hout |- *.
    destruct (TestBot.answer_words (TestBot.command_words raw_line) n)
      as [n' [|output|e]] eqn:Hline.
    + exact (IH n' self Hids Hout).
    + destruct (answer_words_printed _ _ _ _ Hid Hline)
        as (err & cmdid & answer & Hdigits & Hplain & ->).
      destruct (TestBot.serve lines n') as [[printed final] e] eqn:Hserve.
      cbn [fst] in Hout.
      assert (Hread := read_back err cmdid answer (printed ++ rest) self Hdigits
                         Hplain).
      rewrite Hout in Hread. rewrite !append_assoc in Hread.
      specialize (Hread eq_refl).
      destruct (IH n' (set_p self (mkProcess (printed ++ rest) (stdin (p self))
                              (lifetime (p self))))
                  Hids) as (answers & Hlen & Hmany).
      { rewrite Hserve. destruct self; reflexivity. }
      exists ((negb err, answer) :: answers). split; [cbn; now rewrite Hlen|].
      cbn [read_many]. unfold bind at 1. rewrite Hread.
      unfold bind at 1. rewrite Hmany. unfold ret.
      destruct self; reflexivity.
    + exists []. split; [reflexivity|]. cbn in Hout |- *. unfold ret.
      now rewrite <- Hout, set_p_idle.
Qed.

Lemma test_bot_session_is_read_back_witness :
  exists answers : list (bool * string),
    List.length answers
    = printed_replies
        (splitlines ("name" ++ PyStr.nl ++ "# a comment" ++ PyStr.nl
                     ++ "3 frisbee-reg_genmove b" ++ PyStr.nl
                     ++ "quit" ++ PyStr.nl)) 0
    /\ read_many
         (printed_replies
            (splitlines ("name" ++ PyStr.nl ++ "# a comment" ++ PyStr.nl
                         ++ "3 frisbee-reg_genmove b" ++ PyStr.nl
                         ++ "quit" ++ PyStr.nl)) 0)
         (mkGtpBot "black" false
            (mkProcess
               (fst (fst (TestBot.run_bot
                            ("name" ++ PyStr.nl ++ "# a comment" ++ PyStr.nl
                             ++ "3 frisbee-reg_genmove b" ++ PyStr.nl
                             ++ "quit" ++ PyStr.nl))))
               [] None)
            [] "test_bot")
       = (mkGtpBot "black" false (mkProcess EmptyString [] None) [] "test_bot",
          Ok answers).
Proof.
  apply (test_bot_session_is_read_back
           (splitlines ("name" ++ PyStr.nl ++ "# a comment" ++ PyStr.nl
                        ++ "3 frisbee-reg_genmove b" ++ PyStr.nl
                        ++ "quit" ++ PyStr.nl))
           0
           (mkGtpBot "black" false
              (mkProcess
                 (fst (fst (TestBot.run_bot
                              ("name" ++ PyStr.nl ++ "# a comment" ++ PyStr.nl
                               ++ "3 frisbee-reg_genmove b" ++ PyStr.nl
                               ++ "quit" ++ PyStr.nl))))
                 [] None)
              [] "test_bot")
           EmptyString);
    [vm_compute; reflexivity | vm_compute; reflexivity].
Defined.
